(** * Snortsmith rule generator: field validators, revision lookup, resolver

    A shallow embedding of [snortsmith_rulegen/_utils.py] and the properties
    its specification states about it.

    Modelling conventions.
    - A Python [str] is a [string] whose characters are the code points
      U+0000 .. U+00FF; the [ascii] with code [n] stands for the code point
      [n].  On that range every [str] method used by the module
      ([lower], [upper], [strip], [split], [isdigit], [isidentifier], the
      regular-expression classes [\s] and [\d], [int], [repr]) is given the
      behaviour CPython has; [upper] can leave the range and therefore
      produces a list of code points.
    - Python integers are [Z].  Conversions between integers and decimal
      text obey the interpreter's limit on the number of digits, at the
      value it has when the interpreter starts.
    - An exception is a value of [exn]; a function that can raise returns a
      [result].  [try ... except ValueError] is [try_except_ValueError].
    - The rule file is read through a finite map from the paths that exist
      to what reading them gives: the decoded text of the lines handed out
      and, when opening, reading or decoding fails, the exception that ends
      the iteration. *)

From stdpp Require Import base option list gmap strings.
From Stdlib Require Import ZArith NArith Ascii String Bool Lia.
From Stdlib Require Import Numbers.DecimalString.
From Stdlib Require Numbers.DecimalPos.

Local Open Scope string_scope.
Local Open Scope Z_scope.

(** Let [simpl] compute string concatenation again. *)
#[local] Arguments String.append !s1 s2 : simpl nomatch.

(** ** Exceptions and results *)

Inductive exn : Type :=
| ValueError (msg : string)
| KeyError (key : string)
| OSError (msg : string).

Inductive result (A : Type) : Type :=
| Ok (a : A)
| Raise (e : exn).

Arguments Ok {A} a.
Arguments Raise {A} e.

Definition bind {A B : Type} (r : result A) (k : A -> result B) : result B :=
  match r with
  | Ok a => k a
  | Raise e => Raise e
  end.

Notation "x <- r ;; k" := (bind r (fun x => k))
  (at level 100, r at next level, right associativity, only parsing).

(** [try: body except ValueError: handler] *)
Definition try_except_ValueError {A : Type}
    (body : result A) (handler : result A) : result A :=
  match body with
  | Ok a => Ok a
  | Raise (ValueError _) => handler
  | Raise e => Raise e
  end.

Definition succeeds {A : Type} (r : result A) : Prop :=
  exists a, r = Ok a.

Definition fails_with_ValueError {A : Type} (r : result A) : Prop :=
  exists msg, r = Raise (ValueError msg).

(** ** Python values handled by the resolver *)

Inductive pyval : Type :=
| PyNone
| PyBool (b : bool)
| PyInt (z : Z)
| PyStr (s : string).

(** [v is not None] *)
Definition is_not_None (v : pyval) : bool :=
  match v with
  | PyNone => false
  | _ => true
  end.

(** Truth value of a Python object, as [bool(v)] computes it. *)
Definition truthy (v : pyval) : bool :=
  match v with
  | PyNone => false
  | PyBool b => b
  | PyInt z => negb (z =? 0)
  | PyStr s => negb (String.eqb s "")
  end.

(** ** Configuration resolution *)

Section Resolve.

(** [_get_config_value] is imported from [snortsmith_rulegen._config];
    [_resolve] is first embedded over an arbitrary implementation of it,
    which may itself raise. *)
Variable get_config_value :
  gmap string pyval -> string -> pyval -> result pyval.

(** [return arg_val if arg_val is not None
            else _get_config_value(config, key, fallback)] *)
Definition _resolve_with (arg_val : pyval) (config : gmap string pyval)
    (key : string) (fallback : pyval) : result pyval :=
  if is_not_None arg_val then Ok arg_val
  else get_config_value config key fallback.

End Resolve.

(** Modelled from the spec: [_get_config_value] of
    [snortsmith_rulegen/_config.py], whose source is not available.  The
    specification describes it as returning the value found under the key in
    the configuration mapping, else the supplied fallback. *)
Definition _get_config_value (config : gmap string pyval) (key : string)
    (fallback : pyval) : result pyval :=
  match config !! key with
  | Some v => Ok v
  | None => Ok fallback
  end.

Definition _resolve : pyval -> gmap string pyval -> string -> pyval -> result pyval :=
  _resolve_with _get_config_value.

(** ** Characters and strings of the Python runtime *)

Module PyStr.

Definition code (c : ascii) : N := N_of_ascii c.

Definition in_range (lo hi : N) (c : ascii) : bool :=
  ((lo <=? code c) && (code c <=? hi))%N.

Definition is_code (n : N) (c : ascii) : bool := (code c =? n)%N.

(** [str.isspace] on one character; also the class [\s] of [re]. *)
Definition isspace_char (c : ascii) : bool :=
  in_range 9 13 c || in_range 28 32 c || is_code 133 c || is_code 160 c.

(** [str.isdecimal] on one character; also the class [\d] of [re]. *)
Definition isdecimal_char (c : ascii) : bool := in_range 48 57 c.

(** [str.isdigit] on one character: the decimal digits and the
    superscripts two, three and one. *)
Definition isdigit_char (c : ascii) : bool :=
  isdecimal_char c || is_code 178 c || is_code 179 c || is_code 185 c.

Definition lower_char (c : ascii) : ascii :=
  if in_range 65 90 c || (in_range 192 222 c && negb (is_code 215 c))
  then ascii_of_N (code c + 32)
  else c.

(** Upper-casing can leave the modelled range (micro sign, sharp s,
    y with diaeresis), so it yields code points. *)
Definition upper_char (c : ascii) : list N :=
  if in_range 97 122 c || (in_range 224 254 c && negb (is_code 247 c))
  then [code c - 32]%N
  else if is_code 181 c then [924]%N
  else if is_code 223 c then [83; 83]%N
  else if is_code 255 c then [376]%N
  else [code c].

Fixpoint codes (s : string) : list N :=
  match s with
  | EmptyString => []
  | String c s' => code c :: codes s'
  end.

Fixpoint lower (s : string) : string :=
  match s with
  | EmptyString => EmptyString
  | String c s' => String (lower_char c) (lower s')
  end.

Fixpoint upper (s : string) : list N :=
  match s with
  | EmptyString => []
  | String c s' => upper_char c ++ upper s'
  end.

Definition is_empty (s : string) : bool :=
  match s with
  | EmptyString => true
  | String _ _ => false
  end.

Fixpoint all_chars (p : ascii -> bool) (s : string) : bool :=
  match s with
  | EmptyString => true
  | String c s' => p c && all_chars p s'
  end.

(** [c in s] for a one-character [c]. *)
Fixpoint contains (c : ascii) (s : string) : bool :=
  match s with
  | EmptyString => false
  | String c' s' => Ascii.eqb c' c || contains c s'
  end.

Fixpoint lstrip_with (ws : ascii -> bool) (s : string) : string :=
  match s with
  | EmptyString => EmptyString
  | String c s' => if ws c then lstrip_with ws s' else s
  end.

Fixpoint rstrip_with (ws : ascii -> bool) (s : string) : string :=
  match s with
  | EmptyString => EmptyString
  | String c s' =>
      let r := rstrip_with ws s' in
      if is_empty r && ws c then EmptyString else String c r
  end.

Definition strip_with (ws : ascii -> bool) (s : string) : string :=
  rstrip_with ws (lstrip_with ws s).

(** [s.strip()] *)
Definition strip (s : string) : string := strip_with isspace_char s.

(** [s.split(sep)] for a one-character separator. *)
Fixpoint split (sep : ascii) (s : string) : list string :=
  match s with
  | EmptyString => [EmptyString]
  | String c s' =>
      if Ascii.eqb c sep then EmptyString :: split sep s'
      else match split sep s' with
           | h :: t => String c h :: t
           | [] => [String c EmptyString]
           end
  end.

(** [s.split(sep, 1)] for a one-character separator: at most one cut, at
    the first separator. *)
Fixpoint split_max1 (sep : ascii) (s : string) : list string :=
  match s with
  | EmptyString => [EmptyString]
  | String c s' =>
      if Ascii.eqb c sep then [EmptyString; s']
      else match split_max1 sep s' with
           | h :: t => String c h :: t
           | [] => [String c EmptyString]
           end
  end.

(** [s.isdigit()] *)
Definition isdigit (s : string) : bool :=
  negb (is_empty s) && all_chars isdigit_char s.

Definition xid_start (c : ascii) : bool :=
  in_range 65 90 c || in_range 97 122 c || is_code 170 c || is_code 181 c
  || is_code 186 c || in_range 192 214 c || in_range 216 246 c
  || in_range 248 255 c.

Definition xid_continue (c : ascii) : bool :=
  xid_start c || in_range 48 57 c || is_code 95 c || is_code 183 c.

(** [s.isidentifier()] *)
Definition isidentifier (s : string) : bool :=
  match s with
  | EmptyString => false
  | String c s' => (xid_start c || is_code 95 c) && all_chars xid_continue s'
  end.

(** [str(n)] and the [{n}] of an f-string, for an integer. *)
Definition str_of_Z (z : Z) : string := NilZero.string_of_int (Z.to_int z).

(** *** [repr] of a string *)

Definition hex_digit (n : N) : ascii :=
  if (n <? 10)%N then ascii_of_N (48 + n) else ascii_of_N (87 + n).

Definition hex_escape (c : ascii) : string :=
  String "\" (String "x" (String (hex_digit (code c / 16))
                                 (String (hex_digit (code c mod 16)) ""))).

Definition isprintable_char (c : ascii) : bool :=
  in_range 32 126 c || (in_range 161 255 c && negb (is_code 173 c)).

Definition repr_char (quote c : ascii) : string :=
  if Ascii.eqb c quote || is_code 92 c then String "\" (String c "")
  else if is_code 9 c then "\t"
  else if is_code 10 c then "\n"
  else if is_code 13 c then "\r"
  else if isprintable_char c then String c ""
  else hex_escape c.

Fixpoint repr_body (quote : ascii) (s : string) : string :=
  match s with
  | EmptyString => EmptyString
  | String c s' => repr_char quote c ++ repr_body quote s'
  end.

Definition repr (s : string) : string :=
  let quote : ascii :=
    if contains "'" s && negb (contains "034" s) then "034"%char
    else "'"%char in
  String quote (repr_body quote s ++ String quote "").

(** *** [int] of a string, base ten *)

Definition digit_value (c : ascii) : Z := Z.of_N (code c) - 48.

(** Digits, with single underscores allowed between two digits. *)
Fixpoint int_body (s : string) (acc : Z) (prev_digit : bool) : option Z :=
  match s with
  | EmptyString => if prev_digit then Some acc else None
  | String c s' =>
      if isdecimal_char c then int_body s' (10 * acc + digit_value c) true
      else if is_code 95 c then
        if prev_digit then int_body s' acc false else None
      else None
  end.

(** The white space [int] ignores around the literal. *)
Definition int_space (c : ascii) : bool :=
  in_range 9 13 c || is_code 32 c || is_code 133 c || is_code 160 c.

Definition int_literal (t : string) : option Z :=
  match t with
  | String c body =>
      if is_code 43 c then int_body body 0 false
      else if is_code 45 c then option_map Z.opp (int_body body 0 false)
      else int_body t 0 false
  | EmptyString => None
  end.

(** The limit the interpreter puts on the number of digits in a conversion
    between an integer and its decimal text, as it stands when the
    interpreter starts ([sys.get_int_max_str_digits()]). *)
Definition int_max_str_digits : nat := 4300.

(** The literal without its sign. *)
Definition unsigned (t : string) : string :=
  match t with
  | String c body => if is_code 43 c || is_code 45 c then body else t
  | EmptyString => EmptyString
  end.

(** The digits and underscores [s] begins with, as far as they go. *)
Fixpoint digit_run (s : string) : string :=
  match s with
  | String c s' =>
      if isdecimal_char c || is_code 95 c then String c (digit_run s')
      else EmptyString
  | EmptyString => EmptyString
  end.

Fixpoint count_digits (s : string) : nat :=
  match s with
  | String c s' => ((if isdecimal_char c then 1 else 0) + count_digits s')%nat
  | EmptyString => O
  end.

Definition invalid_literal (s : string) : exn :=
  ValueError ("invalid literal for int() with base 10: " ++ repr s).

Definition too_many_digits (digits : nat) : exn :=
  ValueError ("Exceeds the limit (" ++ str_of_Z (Z.of_nat int_max_str_digits)
              ++ " digits) for integer string conversion: value has "
              ++ str_of_Z (Z.of_nat digits)
              ++ " digits; use sys.set_int_max_str_digits() to increase the limit").

(** [int(s)]: white space around the literal is dropped; the digits and
    underscores after the sign are read as far as they go, with the rules
    for underscores; then their number is held against the limit; and only
    then must the literal end where the digits end. *)
Definition int (s : string) : result Z :=
  let t := strip_with int_space s in
  let run := digit_run (unsigned t) in
  match int_body run 0 false with
  | None => Raise (invalid_literal s)
  | Some _ =>
      if (int_max_str_digits <? count_digits run)%nat
      then Raise (too_many_digits (count_digits run))
      else match int_literal t with
           | Some v => Ok v
           | None => Raise (invalid_literal s)
           end
  end.

Definition too_large_to_format : exn :=
  ValueError ("Exceeds the limit (" ++ str_of_Z (Z.of_nat int_max_str_digits)
              ++ " digits) for integer string conversion; "
              ++ "use sys.set_int_max_str_digits() to increase the limit").

(** [str(z)], and [{z}] in an f-string, with the limit on the digits. *)
Definition format_int (z : Z) : result string :=
  if 10 ^ Z.of_nat int_max_str_digits <=? Z.abs z
  then Raise too_large_to_format
  else Ok (str_of_Z z).

End PyStr.

Import PyStr.

(** ** Field validators *)

(** [_validate_port] *)
Definition _validate_port (value : string) : result string :=
  if String.eqb (lower value) "any" then Ok "any"
  else
    try_except_ValueError
      (port <- int value ;;
       if (0 <=? port) && (port <=? 65535) then Ok (str_of_Z port)
       else Raise (ValueError "Port must be between 0 and 65535."))
      (Raise (ValueError "Invalid port: must be an integer or 'any'.")).

(** [int(x) if x and x.isdigit() else None] *)
Definition int_if_digits (x : option string) : result (option Z) :=
  match x with
  | Some s =>
      if negb (is_empty s) && isdigit s then (v <- int s ;; Ok (Some v))
      else Ok None
  | None => Ok None
  end.

(** [_validate_offset_depth] *)
Definition _validate_offset_depth (offset depth : option string)
    : result (option Z * option Z) :=
  offset_val <- int_if_digits offset ;;
  depth_val <- int_if_digits depth ;;
  match offset_val, depth_val with
  | Some o, Some d =>
      if d <? o then Raise (ValueError "Offset cannot be greater than depth.")
      else Ok (offset_val, depth_val)
  | _, _ => Ok (offset_val, depth_val)
  end.

(** [set("FSRPAUCE0*+!,")] *)
Definition allowed_chars : list ascii := list_ascii_of_string "FSRPAUCE0*+!,".

Definition in_allowed_chars (c : ascii) : bool :=
  existsb (Ascii.eqb c) allowed_chars.

(** [_validate_flags] *)
Definition _validate_flags (flags : string) : result (list N) :=
  if all_chars in_allowed_chars flags then Ok (upper flags)
  else Raise (ValueError ("Invalid character in TCP flags: " ++ flags)).

(** [key, val = l]: unpacking a list into two names. *)
Definition unpack2 (l : list string) : result (string * string) :=
  match l with
  | [a; b] => Ok (a, b)
  | [] => Raise (ValueError "not enough values to unpack (expected 2, got 0)")
  | [_] => Raise (ValueError "not enough values to unpack (expected 2, got 1)")
  | _ => Raise (ValueError "too many values to unpack (expected 2)")
  end.

Definition segment_error (part : string) : exn :=
  ValueError ("Invalid metadata segment '" ++ part
    ++ "'. Each entry should be a key-value pair like 'key value'.").

Definition key_error (key : string) : exn :=
  ValueError ("Invalid metadata key '" ++ key
    ++ "'. Keys should be alphanumeric and start with a letter.").

Definition missing_value_error (key : string) : exn :=
  ValueError ("Missing value for metadata key '" ++ key ++ "'.").

(** One iteration of the loop of [_validate_metadata]. *)
Definition check_part (part : string) : result unit :=
  if negb (contains " " part) then Raise (segment_error part)
  else
    kv <- unpack2 (split_max1 " " part) ;;
    let '(key, val) := kv in
    if negb (isidentifier key) then Raise (key_error key)
    else if is_empty val then Raise (missing_value_error key)
    else Ok tt.

Fixpoint check_parts (parts : list string) : result unit :=
  match parts with
  | [] => Ok tt
  | part :: rest => _ <- check_part part ;; check_parts rest
  end.

(** [[item.strip() for item in data.split(",") if item.strip()]] *)
Definition metadata_parts (data : string) : list string :=
  List.map strip
    (List.filter (fun item => negb (is_empty (strip item))) (split "," data)).

(** [_validate_metadata] *)
Definition _validate_metadata (data : string) : result string :=
  _ <- check_parts (metadata_parts data) ;; Ok data.

(** The dictionary [reserved] of [_validate_msg]. *)
Definition reserved : list (ascii * string) :=
  [ (";"%char, "\;");
    ("\"%char, "\\");
    ("034"%char, String "\" (String "034" ""));
    ("|"%char, "\|");
    ("'"%char, "\;") ].

Fixpoint dict_get (d : list (ascii * string)) (c : ascii) : result string :=
  match d with
  | [] => Raise (KeyError (String c ""))
  | (k, v) :: d' => if Ascii.eqb k c then Ok v else dict_get d' c
  end.

(** [escape_char]: [reserved[match.group(0)]] *)
Definition escape_char (char : ascii) : result string := dict_get reserved char.

(** The character class of the pattern: semicolon, backslash, double quote,
    bar, single quote. *)
Definition in_reserved_class (c : ascii) : bool :=
  is_code 59 c || is_code 92 c || is_code 34 c || is_code 124 c || is_code 39 c.

(** [re.sub(pattern, escape_char, value)], where [pattern] is the reserved
    class behind a negative look-behind for a backslash: every character of
    the class whose predecessor in [value] is not a backslash is replaced;
    [after_backslash] tells whether the previous character of [value] is a
    backslash. *)
Fixpoint re_sub_reserved (after_backslash : bool) (value : string)
    : result string :=
  match value with
  | EmptyString => Ok EmptyString
  | String c rest =>
      piece <- (if in_reserved_class c && negb after_backslash
                then escape_char c else Ok (String c "")) ;;
      tail <- re_sub_reserved (is_code 92 c) rest ;;
      Ok (piece ++ tail)
  end.

(** [_validate_msg] *)
Definition _validate_msg (value : string) : result string :=
  re_sub_reserved false value.

(** ** Revision lookup *)

Module Re.

(** A literal piece of a pattern, matched at the start of [s]: the rest of
    [s] after it. *)
Fixpoint literal (lit s : string) : option string :=
  match lit, s with
  | EmptyString, _ => Some s
  | String a lit', String b s' =>
      if Ascii.eqb a b then literal lit' s' else None
  | String _ _, EmptyString => None
  end.

(** [(\d+)] at the start of [s], greedy: the longest run of digits. *)
Fixpoint digits (s : string) : string :=
  match s with
  | EmptyString => EmptyString
  | String c s' => if isdecimal_char c then String c (digits s') else EmptyString
  end.

(** [rev:(\d+)] at the start of [s]: the text of group 1. *)
Definition rev_group (s : string) : option string :=
  match literal "rev:" s with
  | Some r => if is_empty (digits r) then None else Some (digits r)
  | None => None
  end.

(** [\s*rev:(\d+)] at the start of [s]: the star takes as much white space
    as it can and gives characters back while the rest fails. *)
Fixpoint spaces_rev_group (s : string) : option string :=
  match s with
  | EmptyString => rev_group s
  | String c s' =>
      if isspace_char c then
        match spaces_rev_group s' with
        | Some g => Some g
        | None => rev_group s
        end
      else rev_group s
  end.

(** [re.compile(rf'sid:{sid};\s*rev:(\d+)')]. Formatting the signature ID
    can fail. The rest of the pattern is fixed, so the compiled pattern is
    kept as the text that stands in front of the white space, [sid:{sid};]. *)
Definition compile (sid : Z) : result string :=
  text <- format_int sid ;; Ok ("sid:" ++ text ++ ";").

(** [rev_pattern.match(s)]: the whole pattern at the start of [s]. *)
Definition match_here (rev_pattern : string) (s : string) : option string :=
  match literal rev_pattern s with
  | Some r => spaces_rev_group r
  | None => None
  end.

(** [rev_pattern.search(line)]: the match at the leftmost position that
    has one; the result is the text of group 1. *)
Fixpoint search (rev_pattern : string) (line : string) : option string :=
  match match_here rev_pattern line with
  | Some g => Some g
  | None =>
      match line with
      | EmptyString => None
      | String _ line' => search rev_pattern line'
      end
  end.

End Re.

(** Reading a file in text mode: [\r\n] and a lone [\r] become [\n]. *)
Fixpoint universal_newlines (s : string) : string :=
  match s with
  | EmptyString => EmptyString
  | String c s' =>
      if is_code 13 c then
        match s' with
        | String c' _ =>
            if is_code 10 c' then universal_newlines s'
            else String "010" (universal_newlines s')
        | EmptyString => String "010" EmptyString
        end
      else String c (universal_newlines s')
  end.

(** [for line in f]: the lines of the text, each with its newline. *)
Fixpoint readlines (s : string) : list string :=
  match s with
  | EmptyString => []
  | String c s' =>
      if is_code 10 c then String c EmptyString :: readlines s'
      else match readlines s' with
           | l :: ls => String c l :: ls
           | [] => [String c EmptyString]
           end
  end.

Definition file_lines (text : string) : list string :=
  readlines (universal_newlines text).

(** What opening an existing path and iterating over it gives: the lines of
    [content], the decoded text, and after them the end of the iteration,
    or the exception [failure] when opening, reading or decoding fails
    (an [OSError], or a [UnicodeDecodeError], which is a [ValueError]);
    [content] is then the text of the lines handed out before. *)
Record file : Type := {
  content : string;
  failure : option exn
}.

(** The body of the loop of [_get_latest_revision]. *)
Definition scan_line (rev_pattern : string) (max_rev : Z) (line : string)
    : result Z :=
  match Re.search rev_pattern line with
  | Some group1 => rev <- int group1 ;; Ok (Z.max max_rev rev)
  | None => Ok max_rev
  end.

(** [for line in f: ...] over the lines the file hands out, ended by its
    failure when it has one. *)
Fixpoint scan_lines (rev_pattern : string) (max_rev : Z) (lines : list string)
    (failure : option exn) : result Z :=
  match lines with
  | [] =>
      match failure with
      | Some e => Raise e
      | None => Ok max_rev
      end
  | line :: rest =>
      m <- scan_line rev_pattern max_rev line ;;
      scan_lines rev_pattern m rest failure
  end.

(** [_get_latest_revision]; [fs] maps the paths that exist to what reading
    them gives. *)
Definition _get_latest_revision (fs : gmap string file) (outfile : string)
    (sid : Z) : result Z :=
  match fs !! outfile with
  | None => Ok 1
  | Some f =>
      rev_pattern <- Re.compile sid ;;
      max_rev <- scan_lines rev_pattern 0 (file_lines (content f)) (failure f) ;;
      Ok (if max_rev =? 0 then 1 else max_rev + 1)
  end.

(** ** The wording of the specification for the file and its lines *)

Module Text.

(** The text a file gives when it is read in text mode: each line end of
    the file, be it carriage return and line feed, a carriage return alone
    or a line feed, is one line feed. *)
Inductive translated : string -> string -> Prop :=
| translated_end : translated "" ""
| translated_crlf raw text :
    translated raw text ->
    translated (String "013" (String "010" raw)) (String "010" text)
| translated_cr raw text :
    match raw with String c _ => is_code 10 c | EmptyString => false end = false ->
    translated raw text ->
    translated (String "013" raw) (String "010" text)
| translated_char c raw text :
    is_code 13 c = false ->
    translated raw text ->
    translated (String c raw) (String c text).

(** The lines of a text: each ends with its line feed, but for a last line
    that has none, and holds no other line feed. *)
Inductive lines_of : string -> list string -> Prop :=
| lines_none : lines_of "" []
| lines_last body :
    body <> "" -> contains "010" body = false ->
    lines_of body [body]
| lines_next body rest lines :
    contains "010" body = false ->
    lines_of rest lines ->
    lines_of (body ++ String "010" rest) ((body ++ String "010" "") :: lines).

(** The lines of a file whose decoded text is [raw]. *)
Definition file_has_lines (raw : string) (lines : list string) : Prop :=
  exists text, translated raw text /\ lines_of text lines.

(** [n] times the character [c]. *)
Fixpoint repeat (c : ascii) (n : nat) : string :=
  match n with
  | O => EmptyString
  | S n' => String c (repeat c n')
  end.

End Text.

(** ** The wording of the specification for the revision marker *)

Module Marker.

(** The value of a run of decimal digits. *)
Fixpoint value_from (acc : Z) (ds : string) : Z :=
  match ds with
  | EmptyString => acc
  | String c ds' => value_from (10 * acc + digit_value c) ds'
  end.

Definition value (ds : string) : Z := value_from 0 ds.

Definition starts_with_digit (s : string) : bool :=
  match s with
  | String c _ => isdecimal_char c
  | EmptyString => false
  end.

(** The literal [sid:<ID>;]. *)
Definition sid_text (sid : Z) : string := "sid:" ++ str_of_Z sid ++ ";".

(** [s] begins with the marker for [sid]: the literal [sid:<ID>;], optional
    white space, [rev:] and the digits [ds], which are all the digits that
    stand there. *)
Definition begins_with (sid : Z) (ds s : string) : Prop :=
  exists ws post,
    s = sid_text sid ++ ws ++ "rev:" ++ ds ++ post
    /\ all_chars isspace_char ws = true
    /\ all_chars isdecimal_char ds = true
    /\ ds <> ""
    /\ starts_with_digit post = false.

(** The marker for [sid] with digits [ds] occurs in [line] after the
    prefix [pre]. *)
Definition occurs_after (sid : Z) (pre ds line : string) : Prop :=
  exists s, line = pre ++ s /\ begins_with sid ds s.

(** A line matches when the marker occurs somewhere in it. *)
Definition line_matches (sid : Z) (line : string) : Prop :=
  exists pre ds, occurs_after sid pre ds line.

(** The digits extracted from a line: those of the occurrence of the marker
    that no other occurrence precedes. *)
Definition extracted (sid : Z) (line ds : string) : Prop :=
  exists pre,
    occurs_after sid pre ds line
    /\ forall pre' ds', occurs_after sid pre' ds' line ->
         (String.length pre <= String.length pre')%nat.

(** [m] is the greatest of the revisions the marker carries in the lines. *)
Definition greatest (sid : Z) (lines : list string) (m : Z) : Prop :=
  (exists line pre ds,
      In line lines /\ occurs_after sid pre ds line /\ m = value ds)
  /\ (forall line pre ds,
        In line lines -> occurs_after sid pre ds line -> value ds <= m).

(** No revision in the lines has more digits than the interpreter
    converts. *)
Definition within_limit (sid : Z) (lines : list string) : Prop :=
  forall line pre ds,
    In line lines -> occurs_after sid pre ds line ->
    (String.length ds <= int_max_str_digits)%nat.

(** On no line does an occurrence of the marker carry a greater revision
    than the first occurrence on that line; so it is, above all, when no
    line holds the marker twice. *)
Definition first_not_exceeded (sid : Z) (lines : list string) : Prop :=
  forall line ds pre' ds',
    In line lines -> extracted sid line ds -> occurs_after sid pre' ds' line ->
    value ds' <= value ds.

End Marker.

(** ** Notions for the proofs about the scan *)

(** The revision the scan takes from a line: the value of what [search]
    finds in it. *)
Definition line_rev (rev_pattern line : string) : option Z :=
  option_map Marker.value (Re.search rev_pattern line).

Definition line_revs (rev_pattern : string) (lines : list string) : list Z :=
  flat_map (fun line => match line_rev rev_pattern line with
                        | Some r => [r]
                        | None => []
                        end) lines.

(** The greatest element of a list of revisions, 0 for none. *)
Definition max_rev_of (revs : list Z) : Z := fold_right Z.max 0 revs.

(** The digits of all the occurrences of the pattern in a line, from left
    to right. *)
Fixpoint occurrences (rev_pattern line : string) : list string :=
  let here :=
    match Re.match_here rev_pattern line with
    | Some ds => [ds]
    | None => []
    end in
  match line with
  | EmptyString => here
  | String _ line' => here ++ occurrences rev_pattern line'
  end.

(** The tests, on given lines, of the two conditions above. *)
Definition occurrences_within_limit (rev_pattern : string)
    (lines : list string) : bool :=
  forallb (fun line =>
             forallb (fun ds => (String.length ds <=? int_max_str_digits)%nat)
                     (occurrences rev_pattern line)) lines.

Definition first_occurrence_greatest (rev_pattern : string)
    (lines : list string) : bool :=
  forallb (fun line =>
             match Re.search rev_pattern line with
             | Some ds =>
                 forallb (fun ds' => Marker.value ds' <=? Marker.value ds)
                         (occurrences rev_pattern line)
             | None => true
             end) lines.

(** The test that no line gives the scan more digits than the interpreter
    converts. *)
Definition lines_within_limit (rev_pattern : string) (lines : list string)
    : bool :=
  forallb (fun line => match Re.search rev_pattern line with
                       | Some ds => (String.length ds <=? int_max_str_digits)%nat
                       | None => true
                       end) lines.

(** ** The wording of the specification for offset and depth *)

Module OffsetDepth.

(** A string that consists only of digits, [0] to [9]. *)
Definition digit_string (s : string) : bool :=
  negb (is_empty s) && all_chars isdecimal_char s.

(** The input as an integer, or absent. *)
Definition as_integer (x : option string) : option Z :=
  match x with
  | Some s => if digit_string s then Some (Marker.value s) else None
  | None => None
  end.

(** The input holds none of the superscript digits that [isdigit] takes
    for digits, and no more digits than the interpreter converts. *)
Definition plain (x : option string) : Prop :=
  match x with
  | Some s =>
      isdigit s = digit_string s
      /\ (String.length s <= int_max_str_digits)%nat
  | None => True
  end.

End OffsetDepth.

(** ** Shapes of strings used in the statements *)

(** The string does not end with a white-space character. *)
Definition no_trailing_space (s : string) : Prop :=
  forall pre c, s = pre ++ String c "" -> isspace_char c = false.

(** ** The other validators of the module *)

(** [s.startswith(c)] for a one-character [c]. *)
Definition startswith_char (c : ascii) (s : string) : bool :=
  match s with
  | String c' _ => Ascii.eqb c' c
  | EmptyString => false
  end.

(** [s[1:]] *)
Definition from_1 (s : string) : string :=
  match s with
  | String _ rest => rest
  | EmptyString => EmptyString
  end.

(** [sep.join(l)] *)
Fixpoint join (sep : string) (l : list string) : string :=
  match l with
  | [] => EmptyString
  | [x] => x
  | x :: rest => x ++ sep ++ join sep rest
  end.

(** The set [allowed] of [_validate_protocol]. *)
Definition allowed_protocols : gset string := {[ "tcp"; "udp"; "icmp"; "ip" ]}.

Section Protocol.

(** The order in which [join] walks the set [allowed] is chosen by the
    interpreter (string hashing differs from one process to the next); it
    only shows in the text of the error. *)
Variable iteration_order : list string.

(** [_validate_protocol] *)
Definition _validate_protocol (value : string) : result string :=
  let val := lower value in
  if bool_decide (val ∈ allowed_protocols) then Ok val
  else Raise (ValueError ("Invalid protocol: '" ++ value
                          ++ "'. Must be one of "
                          ++ join ", " iteration_order ++ ".")).

End Protocol.

Section Ip.

(** [ipaddress.ip_address] belongs to the standard library; the validator
    only looks at whether it returns or raises. *)
Variable address : Type.
Variable ip_address : string -> result address.

(** [_validate_ip] *)
Definition _validate_ip (value : string) : result string :=
  if String.eqb (lower value) "any" || startswith_char "$" value then Ok value
  else
    try_except_ValueError
      (_ <- ip_address value ;; Ok value)
      (Raise (ValueError ("Invalid IP address: " ++ value))).

End Ip.

(** [_validate_priority] *)
Definition _validate_priority (value : string) : result string :=
  try_except_ValueError
    (priority <- int value ;;
     if (1 <=? priority) && (priority <=? 2147483647)
     then Ok (str_of_Z priority)
     else Raise (ValueError "Priority must be between 1 and 2,147,483,647."))
    (Raise (ValueError "Invalid priority: must be an integer.")).

(** [_validate_pcre] *)
Definition _validate_pcre (pcre : string) : result string :=
  if negb (startswith_char "/" pcre && contains "/" (from_1 pcre))
  then Raise (ValueError
                "Invalid PCRE format. Must start with and have closing '/'.")
  else Ok pcre.

(** [_validate_reference] *)
Definition _validate_reference (value : string) : result string :=
  if negb (contains "," value)
  then Raise (ValueError "Reference must be in format: scheme,id")
  else
    parts <- unpack2 (split_max1 "," value) ;;
    let '(scheme, id_) := parts in
    let scheme := lower (strip scheme) in
    let id_ := strip id_ in
    if is_empty scheme || is_empty id_
    then Raise (ValueError "Reference must include both scheme and id.")
    else Ok (scheme ++ "," ++ id_).

(** What a call of a function wrapped by [_argparse_type] can do: return,
    raise [argparse.ArgumentTypeError], or let another exception through. *)
Inductive outcome (A : Type) : Type :=
| Returned (a : A)
| ArgumentTypeError (msg : string)
| Uncaught (e : exn).

Arguments Returned {A} a.
Arguments ArgumentTypeError {A} msg.
Arguments Uncaught {A} e.

(** [_argparse_type(func)], applied to [value]; [str(e)] of a [ValueError]
    made from one string is that string. *)
Definition _argparse_type {A B : Type} (func : A -> result B) (value : A)
    : outcome B :=
  match func value with
  | Ok b => Returned b
  | Raise (ValueError msg) => ArgumentTypeError msg
  | Raise e => Uncaught e
  end.

(** ** Shapes of strings used in the further statements *)

Module Shape.

(** Every semicolon, double quote, bar and single quote of [s] stands right
    after a backslash; [after_backslash] tells whether [s] itself does. *)
Fixpoint guarded (after_backslash : bool) (s : string) : bool :=
  match s with
  | EmptyString => true
  | String c rest =>
      (negb (is_code 59 c || is_code 34 c || is_code 124 c || is_code 39 c)
       || after_backslash)
      && guarded (is_code 92 c) rest
  end.

(** A metadata segment of the form [key value] with an identifier as key. *)
Definition key_value (part : string) : Prop :=
  exists key val, part = key ++ String " " val /\ isidentifier key = true.

(** The string neither begins nor ends with white space. *)
Definition trimmed (s : string) : Prop := strip s = s.

End Shape.

(** * Properties *)

(** ** Tactics and facts about characters *)

(** Case analysis over the 256 characters. *)
Ltac char_cases c :=
  destruct c as [[|] [|] [|] [|] [|] [|] [|] [|]];
  vm_compute; try reflexivity; try discriminate; try tauto.

Lemma is_empty_true (s : string) : is_empty s = true <-> s = "".
Proof. destruct s; simpl; split; congruence. Qed.

Lemma is_empty_false (s : string) : is_empty s = false <-> s <> "".
Proof. destruct s; simpl; split; congruence. Qed.

Lemma decimal_not_int_space (c : ascii) :
  isdecimal_char c = true -> int_space c = false.
Proof. char_cases c. Qed.

Lemma decimal_not_sign (c : ascii) :
  isdecimal_char c = true -> is_code 43 c = false /\ is_code 45 c = false.
Proof. char_cases c. Qed.

Lemma decimal_is_digit (c : ascii) :
  isdecimal_char c = true -> isdigit_char c = true.
Proof. char_cases c. Qed.

(** ** Configuration resolution *)

(** C9: only [None] counts as an absent direct value. For every direct
    argument other than [None], the falsy ones ([0], [False], the empty
    string) included, [_resolve] returns that argument, whatever the
    configuration lookup would do (it may even raise), whatever the mapping,
    the key and the fallback are: none of them is consulted. *)
Theorem resolve_only_None_is_absent :
  forall (get_config_value : gmap string pyval -> string -> pyval -> result pyval)
         (arg_val : pyval) (config : gmap string pyval) (key : string)
         (fallback : pyval),
    arg_val <> PyNone ->
    _resolve_with get_config_value arg_val config key fallback = Ok arg_val.
Proof.
  intros get arg_val config key fallback Hsome.
  unfold _resolve_with.
  destruct arg_val; simpl; try reflexivity.
  contradiction Hsome; reflexivity.
Qed.

Lemma resolve_only_None_is_absent_witness :
  truthy (PyInt 0) = false
  /\ _resolve_with (fun _ _ _ => Raise (KeyError "k"))
       (PyInt 0) (<["k" := PyStr "cfg"]> ∅) "k" (PyStr "d") = Ok (PyInt 0).
Proof.
  split; [reflexivity |].
  apply (resolve_only_None_is_absent (fun _ _ _ => Raise (KeyError "k"))
           (PyInt 0) (<["k" := PyStr "cfg"]> ∅) "k" (PyStr "d")).
  discriminate.
Defined.

Lemma resolve_falsy_values (config : gmap string pyval) (key : string)
    (fallback : pyval) :
  _resolve (PyInt 0) config key fallback = Ok (PyInt 0)
  /\ _resolve (PyBool false) config key fallback = Ok (PyBool false)
  /\ _resolve (PyStr "") config key fallback = Ok (PyStr "").
Proof. repeat split. Qed.

(** C8: precedence of the three sources. [_resolve] returns the direct value
    whenever it is present; when it is absent, the value of the configuration
    mapping under the key when there is one; and the fallback when there is
    none. *)
Theorem resolve_precedence :
  forall (arg_val : pyval) (config : gmap string pyval) (key : string)
         (fallback : pyval),
    (arg_val <> PyNone -> _resolve arg_val config key fallback = Ok arg_val)
    /\ (forall v, arg_val = PyNone -> config !! key = Some v ->
          _resolve arg_val config key fallback = Ok v)
    /\ (arg_val = PyNone -> config !! key = None ->
          _resolve arg_val config key fallback = Ok fallback).
Proof.
  intros arg_val config key fallback.
  unfold _resolve, _resolve_with, _get_config_value.
  repeat split.
  - intros Hsome. destruct arg_val; simpl; congruence.
  - intros v -> Hv. simpl. rewrite Hv. reflexivity.
  - intros -> Hnone. simpl. rewrite Hnone. reflexivity.
Qed.

Example resolve_direct_value :
  _resolve (PyStr "x") (<["k" := PyStr "cfg"]> ∅) "k" (PyStr "d") = Ok (PyStr "x").
Proof. reflexivity. Qed.

Example resolve_config_value :
  _resolve PyNone (<["k" := PyStr "cfg"]> ∅) "k" (PyStr "d") = Ok (PyStr "cfg").
Proof. vm_compute. reflexivity. Qed.

Example resolve_fallback :
  _resolve PyNone (<["j" := PyStr "cfg"]> ∅) "k" (PyStr "d") = Ok (PyStr "d").
Proof. vm_compute. reflexivity. Qed.

(** ** TCP flags *)

Lemma in_allowed_chars_upper (c : ascii) :
  in_allowed_chars c = true -> upper_char c = [code c].
Proof. char_cases c. Qed.

Lemma upper_allowed (flags : string) :
  all_chars in_allowed_chars flags = true -> upper flags = codes flags.
Proof.
  induction flags as [|c flags IH]; simpl; [reflexivity |].
  intros [Hc Hrest]%andb_true_iff.
  rewrite (in_allowed_chars_upper c Hc), (IH Hrest). reflexivity.
Qed.

(** What the validator does: the alphabet is tested on the input as given,
    before any case folding, so only the upper-case letters pass. *)
Lemma validate_flags_case_sensitive (flags : string) :
  (all_chars in_allowed_chars flags = true ->
     _validate_flags flags = Ok (codes flags))
  /\ (all_chars in_allowed_chars flags = false ->
     _validate_flags flags
     = Raise (ValueError ("Invalid character in TCP flags: " ++ flags))).
Proof.
  unfold _validate_flags. split; intros H; rewrite H; [|reflexivity].
  rewrite (upper_allowed flags H). reflexivity.
Qed.

Example validate_flags_syn_ack :
  _validate_flags "S,A,!A" = Ok (codes "S,A,!A").
Proof. vm_compute. reflexivity. Qed.

Example validate_flags_X :
  _validate_flags "X" = Raise (ValueError "Invalid character in TCP flags: X").
Proof. vm_compute. reflexivity. Qed.

(** C3: the flags validator is meant to accept the letters of its alphabet
    in either case and to return the upper-cased string. On the lower-case
    input [s], a letter of the alphabet, the code fails instead of returning
    [S]: the membership test runs before the upper-casing. *)
Theorem validate_flags_rejects_lower_case :
  in_allowed_chars "S" = true
  /\ upper "s" = codes "S"
  /\ _validate_flags "s"
     = Raise (ValueError "Invalid character in TCP flags: s").
Proof. vm_compute. repeat split. Qed.

(** ** Message escaping *)

Lemma escape_char_total (c : ascii) :
  in_reserved_class c = true -> exists r, escape_char c = Ok r.
Proof.
  destruct c as [[|] [|] [|] [|] [|] [|] [|] [|]]; vm_compute;
    intros H; try discriminate H; eexists; reflexivity.
Qed.

(** The escaper never fails. *)
Lemma validate_msg_total (value : string) :
  exists escaped, _validate_msg value = Ok escaped.
Proof.
  unfold _validate_msg. generalize false.
  induction value as [|c rest IH]; intros b; simpl.
  - eexists; reflexivity.
  - destruct (IH (is_code 92 c)) as [tail ->].
    destruct (in_reserved_class c && negb b) eqn:E.
    + apply andb_true_iff in E as [Hc _].
      destruct (escape_char_total c Hc) as [r ->]. simpl. eexists; reflexivity.
    + simpl. eexists; reflexivity.
Qed.

(** C4: the escaper is meant never to escape twice, so the already escaped
    [a\;b] should come back unchanged. The code leaves the semicolon alone
    but escapes the backslash in front of it, which is itself a reserved
    character not preceded by a backslash: the result is [a\\;b]. The plain
    [a;b] becomes [a\;b] as intended. *)
Theorem validate_msg_escapes_the_escaping_backslash :
  _validate_msg "a;b" = Ok "a\;b"
  /\ _validate_msg "a\;b" = Ok "a\\;b"
  /\ _validate_msg "a\;b" <> Ok "a\;b".
Proof. vm_compute. repeat split. discriminate. Qed.

(** ** Failures of [int] *)

(** [int] fails with a [ValueError] only. *)
Lemma int_raises (s : string) (e : exn) :
  int s = Raise e -> exists msg, e = ValueError msg.
Proof.
  unfold int, invalid_literal, too_many_digits.
  destruct (int_body _ 0 false); [|intros [= <-]; eexists; reflexivity].
  destruct (_ <? _)%nat; [intros [= <-]; eexists; reflexivity |].
  destruct (int_literal _); [discriminate |].
  intros [= <-]. eexists. reflexivity.
Qed.

(** ** Port *)

(** Every failure of the port validator carries the same message: the range
    error is raised inside the [try] block and replaced by its handler. *)
Lemma validate_port_single_message (value : string) (e : exn) :
  _validate_port value = Raise e ->
  e = ValueError "Invalid port: must be an integer or 'any'.".
Proof.
  unfold _validate_port.
  destruct (String.eqb (lower value) "any"); [discriminate |].
  destruct (int value) as [port|e'] eqn:Hint; simpl.
  - destruct ((0 <=? port) && (port <=? 65535)); simpl; congruence.
  - destruct (int_raises value e' Hint) as [msg ->]. simpl. congruence.
Qed.

Lemma validate_port_any (value : string) :
  lower value = "any" -> _validate_port value = Ok "any".
Proof.
  intros H. unfold _validate_port. rewrite H. reflexivity.
Qed.

Lemma validate_port_number (value : string) (n : Z) :
  lower value <> "any" -> int value = Ok n -> 0 <= n <= 65535 ->
  _validate_port value = Ok (str_of_Z n).
Proof.
  intros Hany Hint Hrange. unfold _validate_port.
  destruct (String.eqb_spec (lower value) "any") as [|_]; [contradiction |].
  rewrite Hint. simpl.
  replace ((0 <=? n) && (n <=? 65535)) with true by (symmetry; apply andb_true_iff; lia).
  reflexivity.
Qed.

(** C5, as the code has it: the port validator succeeds exactly when the
    input is [any] in some letter case or parses as an integer between 0 and
    65535, and fails with a [ValueError] otherwise; for [any] in whatever
    letter case it returns the lower-case string [any]. *)
Theorem validate_port_accepts :
  forall value : string,
    (succeeds (_validate_port value) <->
       lower value = "any"
       \/ exists n, int value = Ok n /\ 0 <= n <= 65535)
    /\ (~ succeeds (_validate_port value) ->
          fails_with_ValueError (_validate_port value))
    /\ (lower value = "any" -> _validate_port value = Ok "any").
Proof.
  intros value. split; [split |split].
  - intros [a Ha]. unfold _validate_port in Ha.
    destruct (String.eqb_spec (lower value) "any") as [Hany|Hany]; [left; exact Hany |].
    right. destruct (int value) as [n|e] eqn:Hint; simpl in Ha.
    + exists n. split; [reflexivity |].
      destruct ((0 <=? n) && (n <=? 65535)) eqn:Hr; simpl in Ha.
      * apply andb_true_iff in Hr. lia.
      * discriminate.
    + destruct e; discriminate.
  - intros [Hany | (n & Hint & Hrange)].
    + exists "any". apply validate_port_any, Hany.
    + destruct (String.eqb_spec (lower value) "any") as [Hany|Hany].
      * exists "any". apply validate_port_any, Hany.
      * exists (str_of_Z n). apply validate_port_number; assumption.
  - intros Hfail. destruct (_validate_port value) as [a|e] eqn:E.
    + contradiction Hfail. exists a. reflexivity.
    + apply validate_port_single_message in E. subst e.
      eexists. reflexivity.
  - apply validate_port_any.
Qed.

(** C5, as stated, fails: [ANY] is accepted, but what comes back is [any],
    not the input. *)
Lemma validate_port_any_is_lowered :
  lower "ANY" = "any"
  /\ _validate_port "ANY" = Ok "any"
  /\ _validate_port "ANY" <> Ok "ANY".
Proof. vm_compute. repeat split. discriminate. Qed.

Example validate_port_examples :
  _validate_port "any" = Ok "any"
  /\ _validate_port "65535" = Ok "65535"
  /\ _validate_port " +0_80 " = Ok "80".
Proof. vm_compute. repeat split. Qed.

(** C6: a number outside the range is meant to fail with the range message
    and only other input with the integer-or-any message. The code gives
    [65536] the very message it gives [abc]: the range error is raised inside
    the [try] block, whose handler catches it and raises the other one. *)
Theorem validate_port_range_message_is_replaced :
  int "65536" = Ok 65536
  /\ _validate_port "65536"
     = Raise (ValueError "Invalid port: must be an integer or 'any'.")
  /\ _validate_port "abc"
     = Raise (ValueError "Invalid port: must be an integer or 'any'.").
Proof. vm_compute. repeat split. Qed.

(** ** Integers from digit strings *)

Lemma rstrip_with_id (ws : ascii -> bool) (s : string) :
  all_chars (fun c => negb (ws c)) s = true -> rstrip_with ws s = s.
Proof.
  induction s as [|c s IH]; simpl; [reflexivity |].
  intros [Hc Hs]%andb_true_iff. rewrite (IH Hs).
  apply negb_true_iff in Hc. rewrite Hc, andb_false_r. reflexivity.
Qed.

Lemma all_chars_impl (p q : ascii -> bool) (s : string) :
  (forall c, p c = true -> q c = true) ->
  all_chars p s = true -> all_chars q s = true.
Proof.
  intros Hpq. induction s as [|c s IH]; simpl; [reflexivity |].
  intros [Hc Hs]%andb_true_iff. rewrite (Hpq c Hc), (IH Hs). reflexivity.
Qed.

Lemma int_body_decimal (ds : string) :
  all_chars isdecimal_char ds = true ->
  forall acc b, ds <> "" \/ b = true ->
  int_body ds acc b = Some (Marker.value_from acc ds).
Proof.
  induction ds as [|c ds IH]; simpl.
  - intros _ acc b [H | ->]; [contradiction H |]; reflexivity.
  - intros [Hc Hds]%andb_true_iff acc b _. rewrite Hc.
    apply IH; [exact Hds | right; reflexivity].
Qed.

Lemma digit_run_decimal (ds : string) :
  all_chars isdecimal_char ds = true -> digit_run ds = ds.
Proof.
  induction ds as [|c ds IH]; simpl; [reflexivity |].
  intros [Hc Hds]%andb_true_iff. rewrite Hc, (IH Hds). reflexivity.
Qed.

Lemma count_digits_decimal (ds : string) :
  all_chars isdecimal_char ds = true -> count_digits ds = String.length ds.
Proof.
  induction ds as [|c ds IH]; simpl; [reflexivity |].
  intros [Hc Hds]%andb_true_iff. rewrite Hc, (IH Hds). reflexivity.
Qed.

(** [int] of a non-empty run of decimal digits: its value, unless the
    digits are more than the interpreter converts. *)
Lemma int_decimal_cases (ds : string) :
  all_chars isdecimal_char ds = true -> ds <> "" ->
  int ds = if (int_max_str_digits <? String.length ds)%nat
           then Raise (too_many_digits (String.length ds))
           else Ok (Marker.value ds).
Proof.
  intros Hall Hne. unfold int, strip_with.
  destruct ds as [|c ds]; [contradiction Hne; reflexivity |].
  pose proof Hall as Hall'. simpl in Hall'.
  apply andb_true_iff in Hall' as [Hc Hds].
  simpl lstrip_with. rewrite (decimal_not_int_space c Hc).
  rewrite rstrip_with_id.
  - cbv zeta. unfold unsigned, int_literal.
    destruct (decimal_not_sign c Hc) as [-> ->]. cbn [orb].
    rewrite (digit_run_decimal (String c ds) Hall).
    rewrite (count_digits_decimal (String c ds) Hall).
    rewrite (int_body_decimal (String c ds) Hall 0 false (or_introl Hne)).
    reflexivity.
  - apply (all_chars_impl isdecimal_char); [|exact Hall].
    intros c' Hc'. rewrite (decimal_not_int_space c' Hc'). reflexivity.
Qed.

(** [int] of a non-empty run of decimal digits within the limit is its
    value. *)
Lemma int_decimal (ds : string) :
  all_chars isdecimal_char ds = true -> ds <> "" ->
  (String.length ds <= int_max_str_digits)%nat ->
  int ds = Ok (Marker.value ds).
Proof.
  intros Hall Hne Hlen. rewrite (int_decimal_cases ds Hall Hne).
  destruct (Nat.ltb_spec int_max_str_digits (String.length ds)); [lia | reflexivity].
Qed.

Lemma value_from_nonneg (ds : string) :
  all_chars isdecimal_char ds = true ->
  forall acc, 0 <= acc -> 0 <= Marker.value_from acc ds.
Proof.
  induction ds as [|c ds IH]; simpl; [intros _ acc H; exact H |].
  intros [Hc Hds]%andb_true_iff acc Hacc. apply IH; [exact Hds |].
  assert (0 <= digit_value c) by (revert Hc; char_cases c).
  lia.
Qed.

(** ** Offset and depth *)

Lemma int_if_digits_plain (x : option string) :
  OffsetDepth.plain x ->
  int_if_digits x = Ok (OffsetDepth.as_integer x).
Proof.
  destruct x as [s|]; simpl; [|reflexivity].
  intros [-> Hlen]. unfold OffsetDepth.digit_string.
  destruct s as [|c s]; [reflexivity |].
  cbn [is_empty negb andb].
  destruct (all_chars isdecimal_char (String c s)) eqn:Hall; [|reflexivity].
  rewrite (int_decimal (String c s) Hall) by (discriminate || exact Hlen).
  reflexivity.
Qed.

(** On inputs free of superscript digits, and of no more digits than the
    interpreter converts, the validator behaves as its contract says: it fails exactly when both are digit strings with the
    offset above the depth, and otherwise returns the two integers. *)
Lemma validate_offset_depth_plain (offset depth : option string) :
  OffsetDepth.plain offset -> OffsetDepth.plain depth ->
  _validate_offset_depth offset depth =
    match OffsetDepth.as_integer offset, OffsetDepth.as_integer depth with
    | Some o, Some d =>
        if d <? o then Raise (ValueError "Offset cannot be greater than depth.")
        else Ok (Some o, Some d)
    | o, d => Ok (o, d)
    end.
Proof.
  intros Ho Hd. unfold _validate_offset_depth.
  rewrite (int_if_digits_plain offset Ho), (int_if_digits_plain depth Hd).
  simpl.
  destruct (OffsetDepth.as_integer offset), (OffsetDepth.as_integer depth);
    reflexivity.
Qed.

Example validate_offset_depth_examples :
  _validate_offset_depth (Some "10") (Some "5")
    = Raise (ValueError "Offset cannot be greater than depth.")
  /\ _validate_offset_depth (Some "5") (Some "10") = Ok (Some 5, Some 10)
  /\ _validate_offset_depth None None = Ok (None, None)
  /\ _validate_offset_depth (Some "abc") (Some "5") = Ok (None, Some 5).
Proof. vm_compute. repeat split. Qed.

(** C7: an input that is not a string of digits is meant to be taken as
    absent, without an error. The superscript two (code point 178) passes
    the [isdigit] test of the code, and [int] then rejects it: with that
    offset and no depth the validator raises a [ValueError], although the
    two inputs are not both digit strings with the offset above the depth. *)
Theorem validate_offset_depth_superscript_raises :
  isdigit (String "178" "") = true
  /\ OffsetDepth.digit_string (String "178" "") = false
  /\ _validate_offset_depth (Some (String "178" "")) None
     = Raise (ValueError ("invalid literal for int() with base 10: '"
                          ++ String "178" "'")).
Proof. vm_compute. repeat split. Qed.

(** ** Metadata *)

Lemma append_singleton_inv (pre : string) (c d : ascii) (r : string) :
  String d r = pre ++ String c "" ->
  (pre = "" /\ d = c /\ r = "") \/ (exists pre', pre = String d pre' /\ r = pre' ++ String c "").
Proof.
  destruct pre as [|p pre]; simpl; intros H; injection H as -> ->.
  - left. repeat split.
  - right. exists pre. split; reflexivity.
Qed.

Lemma rstrip_with_no_trailing (ws : ascii -> bool) (s : string) :
  forall pre c, rstrip_with ws s = pre ++ String c "" -> ws c = false.
Proof.
  induction s as [|d s IH]; simpl; intros pre c H.
  - destruct pre; discriminate H.
  - destruct (is_empty (rstrip_with ws s) && ws d) eqn:E.
    + destruct pre; discriminate H.
    + apply append_singleton_inv in H as [(_ & <- & Hr) | (pre' & _ & Hr)].
      * rewrite Hr in E. simpl in E. exact E.
      * exact (IH pre' c Hr).
Qed.

Lemma strip_no_trailing_space (s : string) : no_trailing_space (strip s).
Proof.
  intros pre c H. unfold strip, strip_with in H.
  exact (rstrip_with_no_trailing isspace_char _ pre c H).
Qed.

Lemma metadata_parts_stripped (data part : string) :
  In part (metadata_parts data) -> no_trailing_space part.
Proof.
  unfold metadata_parts. intros (item & <- & _)%in_map_iff.
  apply strip_no_trailing_space.
Qed.

(** Cutting at the first separator: the key holds no separator and the two
    pieces, with the separator between them, make up the string. *)
Lemma split_max1_first (sep : ascii) (s : string) :
  contains sep s = true ->
  exists key val,
    split_max1 sep s = [key; val]
    /\ s = key ++ String sep val
    /\ contains sep key = false.
Proof.
  induction s as [|c s IH]; simpl; [discriminate |].
  destruct (Ascii.eqb_spec c sep) as [->|Hne]; simpl.
  - intros _. exists "", s. repeat split.
  - intros (key & val & -> & -> & Hkey)%IH.
    exists (String c key), val. simpl.
    destruct (Ascii.eqb_spec c sep); [contradiction |].
    repeat split. exact Hkey.
Qed.

(** A segment without trailing white space that holds a space splits into a
    key and a remainder that is not empty. *)
Lemma split_max1_value_nonempty (part : string) :
  no_trailing_space part -> contains " " part = true ->
  exists key val,
    split_max1 " " part = [key; val]
    /\ part = key ++ String " " val
    /\ val <> "".
Proof.
  intros Hstripped Hspace.
  destruct (split_max1_first " " part Hspace) as (key & val & Hsplit & Hpart & _).
  exists key, val. repeat split; try assumption.
  intros ->. specialize (Hstripped key " "%char Hpart). discriminate Hstripped.
Qed.

Lemma check_part_outcomes (part : string) :
  no_trailing_space part ->
  check_part part = Ok tt
  \/ (check_part part = Raise (segment_error part) /\ contains " " part = false)
  \/ (exists key, check_part part = Raise (key_error key)
                  /\ isidentifier key = false).
Proof.
  intros Hstripped. unfold check_part.
  destruct (contains " " part) eqn:Hspace; simpl.
  - destruct (split_max1_value_nonempty part Hstripped Hspace)
      as (key & val & -> & _ & Hval).
    simpl. destruct (isidentifier key) eqn:Hid; simpl.
    + apply is_empty_false in Hval. rewrite Hval. left. reflexivity.
    + right. right. exists key. split; [reflexivity | exact Hid].
  - right. left. split; reflexivity.
Qed.

Lemma check_parts_outcomes (parts : list string) :
  Forall no_trailing_space parts ->
  check_parts parts = Ok tt
  \/ (exists part, check_parts parts = Raise (segment_error part)
                   /\ contains " " part = false)
  \/ (exists key, check_parts parts = Raise (key_error key)
                  /\ isidentifier key = false).
Proof.
  induction 1 as [|part rest Hpart _ IH]; simpl; [left; reflexivity |].
  destruct (check_part_outcomes part Hpart) as [-> | [[-> Hs] | (key & -> & Hk)]];
    simpl.
  - exact IH.
  - right. left. exists part. split; [reflexivity | exact Hs].
  - right. right. exists key. split; [reflexivity | exact Hk].
Qed.

(** C10: the missing-value branch of the metadata validator cannot be
    reached. Every segment that is left after stripping and holds a space
    splits at its first space into a key and a remainder that is not empty;
    so for every input the validator returns the input, or fails in the
    no-space check, or fails in the key check, and never raises the
    missing-value error (nor fails to unpack the split). *)
Theorem validate_metadata_missing_value_unreachable :
  forall data : string,
    (forall part, In part (metadata_parts data) -> contains " " part = true ->
       exists key val, split_max1 " " part = [key; val] /\ val <> "")
    /\ (_validate_metadata data = Ok data
        \/ (exists part, _validate_metadata data = Raise (segment_error part)
                         /\ contains " " part = false)
        \/ (exists key, _validate_metadata data = Raise (key_error key)
                        /\ isidentifier key = false))
    /\ (forall key, _validate_metadata data <> Raise (missing_value_error key)).
Proof.
  intros data.
  assert (Hall : Forall no_trailing_space (metadata_parts data)).
  { apply List.Forall_forall. intros part. apply metadata_parts_stripped. }
  assert (Hcases :
    _validate_metadata data = Ok data
    \/ (exists part, _validate_metadata data = Raise (segment_error part)
                     /\ contains " " part = false)
    \/ (exists key, _validate_metadata data = Raise (key_error key)
                    /\ isidentifier key = false)).
  { unfold _validate_metadata.
    destruct (check_parts_outcomes _ Hall) as [-> | [(p & -> & Hp) | (k & -> & Hk)]];
      simpl.
    - left. reflexivity.
    - right. left. exists p. split; [reflexivity | exact Hp].
    - right. right. exists k. split; [reflexivity | exact Hk]. }
  split; [|split; [exact Hcases |]].
  - intros part Hin Hspace.
    destruct (split_max1_value_nonempty part (metadata_parts_stripped data part Hin) Hspace)
      as (key & val & Hsplit & _ & Hval).
    exists key, val. split; assumption.
  - intros key Hmissing.
    destruct Hcases as [H | [(p & H & _) | (k & H & _)]];
      rewrite H in Hmissing; discriminate Hmissing.
Qed.

Example validate_metadata_examples :
  _validate_metadata "os linux, author admin" = Ok "os linux, author admin"
  /\ _validate_metadata "os" = Raise (segment_error "os")
  /\ _validate_metadata "1bad val" = Raise (key_error "1bad").
Proof. vm_compute. repeat split. Qed.

(** ** The pattern of the revision lookup *)

Lemma literal_spec (lit s r : string) :
  Re.literal lit s = Some r <-> s = lit ++ r.
Proof.
  revert s. induction lit as [|a lit IH]; intros s; simpl.
  - split; congruence.
  - destruct s as [|b s].
    + split; discriminate.
    + destruct (Ascii.eqb_spec a b) as [->|Hne].
      * rewrite IH. split; congruence.
      * split; [discriminate | congruence].
Qed.

Lemma digits_decimal (s : string) :
  all_chars isdecimal_char (Re.digits s) = true.
Proof.
  induction s as [|c s IH]; simpl; [reflexivity |].
  destruct (isdecimal_char c) eqn:Hc; simpl; [|reflexivity].
  rewrite Hc, IH. reflexivity.
Qed.

Lemma digits_split (s : string) :
  exists post, s = Re.digits s ++ post /\ Marker.starts_with_digit post = false.
Proof.
  induction s as [|c s (post & Hs & Hpost)]; simpl.
  - exists "". split; reflexivity.
  - destruct (isdecimal_char c) eqn:Hc.
    + exists post. simpl. split; [congruence | exact Hpost].
    + exists (String c s). simpl. split; [reflexivity | exact Hc].
Qed.

Lemma digits_maximal (ds post : string) :
  all_chars isdecimal_char ds = true ->
  Marker.starts_with_digit post = false ->
  Re.digits (ds ++ post) = ds.
Proof.
  intros Hds Hpost. induction ds as [|c ds IH]; simpl.
  - destruct post as [|p post]; simpl in *; [reflexivity |].
    rewrite Hpost. reflexivity.
  - simpl in Hds. apply andb_true_iff in Hds as [Hc Hds].
    rewrite Hc, (IH Hds). reflexivity.
Qed.

Lemma rev_group_spec (s ds : string) :
  Re.rev_group s = Some ds <->
  exists post,
    s = "rev:" ++ ds ++ post
    /\ all_chars isdecimal_char ds = true
    /\ ds <> ""
    /\ Marker.starts_with_digit post = false.
Proof.
  unfold Re.rev_group. split.
  - destruct (Re.literal "rev:" s) as [r|] eqn:Hlit; [|discriminate].
    apply literal_spec in Hlit.
    destruct (is_empty (Re.digits r)) eqn:He; [discriminate |].
    intros [= <-].
    destruct (digits_split r) as (post & Hr & Hpost).
    exists post. repeat split.
    + rewrite <- Hr. exact Hlit.
    + apply digits_decimal.
    + apply is_empty_false, He.
    + exact Hpost.
  - intros (post & -> & Hds & Hne & Hpost).
    assert (Hlit : Re.literal "rev:" ("rev:" ++ ds ++ post) = Some (ds ++ post))
      by (apply literal_spec; reflexivity).
    rewrite Hlit, (digits_maximal ds post Hds Hpost).
    apply is_empty_false in Hne. rewrite Hne. reflexivity.
Qed.

Lemma spaces_rev_group_space (c : ascii) (s g : string) :
  isspace_char c = true ->
  Re.spaces_rev_group s = Some g ->
  Re.spaces_rev_group (String c s) = Some g.
Proof. intros Hc Hs. simpl. rewrite Hc, Hs. reflexivity. Qed.

Lemma spaces_rev_group_spec (s ds : string) :
  Re.spaces_rev_group s = Some ds <->
  exists ws post,
    s = ws ++ "rev:" ++ ds ++ post
    /\ all_chars isspace_char ws = true
    /\ all_chars isdecimal_char ds = true
    /\ ds <> ""
    /\ Marker.starts_with_digit post = false.
Proof.
  split.
  - assert (Hhere : forall t, Re.rev_group t = Some ds ->
              exists ws post,
                t = ws ++ "rev:" ++ ds ++ post
                /\ all_chars isspace_char ws = true
                /\ all_chars isdecimal_char ds = true
                /\ ds <> ""
                /\ Marker.starts_with_digit post = false).
    { intros t (post & Ht & H)%rev_group_spec.
      exists "", post. split; [exact Ht | split; [reflexivity | exact H]]. }
    induction s as [|c s IH]; simpl; [apply Hhere |].
    destruct (isspace_char c) eqn:Hc; [|apply Hhere].
    destruct (Re.spaces_rev_group s) as [g|]; [|apply Hhere].
    intros [= ->].
    destruct (IH eq_refl) as (ws & post & -> & Hws & H).
    exists (String c ws), post. simpl. rewrite Hc, Hws.
    split; [reflexivity | split; [reflexivity | exact H]].
  - intros (ws & post & -> & Hws & Hds & Hne & Hpost).
    assert (Hrev : Re.rev_group ("rev:" ++ ds ++ post) = Some ds).
    { apply rev_group_spec. exists post. repeat split; assumption. }
    induction ws as [|c ws IH].
    + exact Hrev.
    + simpl in Hws. apply andb_true_iff in Hws as [Hc Hws].
      apply (spaces_rev_group_space c (ws ++ "rev:" ++ ds ++ post) ds Hc (IH Hws)).
Qed.

(** Compiling the pattern gives the literal of the specification, unless
    the signature ID is too long to be formatted. *)
Lemma compile_cases (sid : Z) :
  (Z.abs sid < 10 ^ Z.of_nat int_max_str_digits
   /\ Re.compile sid = Ok (Marker.sid_text sid))
  \/ (10 ^ Z.of_nat int_max_str_digits <= Z.abs sid
      /\ Re.compile sid = Raise too_large_to_format).
Proof.
  unfold Re.compile, format_int, Marker.sid_text.
  destruct (Z.leb_spec (10 ^ Z.of_nat int_max_str_digits) (Z.abs sid)); simpl.
  - right. split; [assumption | reflexivity].
  - left. split; [assumption | reflexivity].
Qed.

(** The matcher of the code finds, at a given place, exactly the marker the
    specification describes. *)
Lemma match_here_spec (sid : Z) (s ds : string) :
  Re.match_here (Marker.sid_text sid) s = Some ds <-> Marker.begins_with sid ds s.
Proof.
  unfold Re.match_here, Marker.begins_with. split.
  - destruct (Re.literal (Marker.sid_text sid) s) as [r|] eqn:Hlit; [|discriminate].
    apply literal_spec in Hlit.
    intros (ws & post & -> & H)%spaces_rev_group_spec.
    exists ws, post. split; [exact Hlit | exact H].
  - intros (ws & post & -> & H).
    assert (Hlit : Re.literal (Marker.sid_text sid)
                     (Marker.sid_text sid ++ ws ++ "rev:" ++ ds ++ post)
                   = Some (ws ++ "rev:" ++ ds ++ post))
      by (apply literal_spec; reflexivity).
    rewrite Hlit. apply spaces_rev_group_spec.
    exists ws, post. split; [reflexivity | exact H].
Qed.

(** ** Searching a line *)

Lemma search_unfold (rev_pattern line : string) :
  Re.search rev_pattern line =
    match Re.match_here rev_pattern line with
    | Some g => Some g
    | None => match line with
              | EmptyString => None
              | String _ line' => Re.search rev_pattern line'
              end
    end.
Proof. destruct line; reflexivity. Qed.

(** The occurrence [search] returns is the leftmost one of the line. *)
Lemma search_leftmost (sid : Z) (line ds : string) :
  Re.search (Marker.sid_text sid) line = Some ds ->
  Marker.extracted sid line ds.
Proof.
  unfold Marker.extracted.
  induction line as [|c line IH]; rewrite search_unfold;
    destruct (Re.match_here (Marker.sid_text sid) _) as [g|] eqn:Hhere.
  - intros [= ->]. exists "". split.
    + exists "". split; [reflexivity | apply match_here_spec, Hhere].
    + intros pre' ds' _. simpl. lia.
  - discriminate.
  - intros [= ->]. exists "". split.
    + exists (String c line). split; [reflexivity | apply match_here_spec, Hhere].
    + intros pre' ds' _. simpl. lia.
  - intros (pre & (s & -> & Hs) & Hleast)%IH.
    exists (String c pre). split.
    + exists s. split; [reflexivity | exact Hs].
    + intros pre' ds' (s' & Hline & Hs').
      destruct pre' as [|c' pre']; simpl in Hline.
      * subst s'. apply match_here_spec in Hs'. congruence.
      * injection Hline as <- Hline. simpl.
        apply le_n_S, (Hleast pre' ds'). exists s'. split; assumption.
Qed.

Lemma occurrence_is_found (sid : Z) (pre ds line : string) :
  Marker.occurs_after sid pre ds line ->
  exists g, Re.search (Marker.sid_text sid) line = Some g.
Proof.
  intros (s & -> & Hs). apply match_here_spec in Hs.
  induction pre as [|c pre IH]; simpl append; rewrite search_unfold.
  - rewrite Hs. exists ds. reflexivity.
  - destruct (Re.match_here (Marker.sid_text sid) (String c (pre ++ s))) as [g|];
      [exists g; reflexivity | exact IH].
Qed.

(** A line matches exactly when [search] finds something in it. *)
Lemma search_matches (sid : Z) (line : string) :
  (exists g, Re.search (Marker.sid_text sid) line = Some g)
  <-> Marker.line_matches sid line.
Proof.
  split.
  - intros (g & (pre & Hocc & _)%search_leftmost). exists pre, g. exact Hocc.
  - intros (pre & ds & Hocc). exact (occurrence_is_found sid pre ds line Hocc).
Qed.

(** Two ways of cutting one string at the same place agree. *)
Lemma append_same_length (a b x y : string) :
  String.length a = String.length b -> a ++ x = b ++ y -> a = b /\ x = y.
Proof.
  revert b. induction a as [|c a IH]; intros [|d b]; simpl; try discriminate.
  - intros _ ->. split; reflexivity.
  - intros [= Hlen] [= -> Happ]. destruct (IH b Hlen Happ) as [-> ->].
    split; reflexivity.
Qed.

(** What [search] finds in a line is what the specification calls the
    digits extracted from it. *)
Lemma search_extracted (sid : Z) (line ds : string) :
  Re.search (Marker.sid_text sid) line = Some ds <-> Marker.extracted sid line ds.
Proof.
  split; [apply search_leftmost |].
  intros (pre & Hocc & Hleast).
  destruct (occurrence_is_found sid pre ds line Hocc) as [g Hs].
  rewrite Hs. f_equal.
  destruct (search_leftmost sid line g Hs) as (pre0 & Hocc0 & Hleast0).
  pose proof (Hleast pre0 g Hocc0) as Hle.
  pose proof (Hleast0 pre ds Hocc) as Hge.
  destruct Hocc as (s & Hline & Hbegin), Hocc0 as (s0 & Hline0 & Hbegin0).
  assert (Hcut : pre0 = pre /\ s0 = s).
  { apply append_same_length; [lia | congruence]. }
  destruct Hcut as [_ ->].
  apply match_here_spec in Hbegin, Hbegin0. congruence.
Qed.

Lemma search_group_decimal (sid : Z) (line ds : string) :
  Re.search (Marker.sid_text sid) line = Some ds ->
  all_chars isdecimal_char ds = true /\ ds <> "".
Proof.
  intros (pre & (s & _ & (ws & post & _ & _ & Hds & Hne & _)) & _)%search_leftmost.
  split; assumption.
Qed.

Lemma line_rev_nonneg (sid : Z) (line : string) (r : Z) :
  line_rev (Marker.sid_text sid) line = Some r -> 0 <= r.
Proof.
  unfold line_rev.
  destruct (Re.search (Marker.sid_text sid) line) as [g|] eqn:Hs; simpl; [|discriminate].
  intros [= <-]. destruct (search_group_decimal sid line g Hs) as [Hds _].
  apply value_from_nonneg; [exact Hds | lia].
Qed.

(** ** The lines of a file *)

Lemma is_code_char (n : N) (c : ascii) :
  is_code n c = true -> c = ascii_of_N n.
Proof.
  unfold is_code, code. intros H%N.eqb_eq.
  rewrite <- H. symmetry. apply ascii_N_embedding.
Qed.

Lemma eqb_line_feed (c : ascii) : Ascii.eqb c "010" = is_code 10 c.
Proof. char_cases c. Qed.

Lemma translated_universal_newlines (raw : string) :
  Text.translated raw (universal_newlines raw).
Proof.
  assert (H : Text.translated raw (universal_newlines raw)
              /\ forall c, Text.translated (String c raw)
                             (universal_newlines (String c raw))).
  { induction raw as [|d raw [IH IHc]].
    - split; [constructor |]. intros c. simpl.
      destruct (is_code 13 c) eqn:Hc.
      + rewrite (is_code_char 13 c Hc).
        apply Text.translated_cr; [reflexivity | constructor].
      + apply Text.translated_char; [exact Hc | constructor].
    - split; [apply IHc |]. intros c.
      cbn [universal_newlines].
      destruct (is_code 13 c) eqn:Hc.
      + rewrite (is_code_char 13 c Hc).
        destruct (is_code 10 d) eqn:Hd.
        * rewrite (is_code_char 10 d Hd).
          replace (universal_newlines (String (ascii_of_N 10) raw))
            with (String "010" (universal_newlines raw)) by reflexivity.
          apply Text.translated_crlf, IH.
        * apply Text.translated_cr; [exact Hd | apply IHc].
      + apply Text.translated_char; [exact Hc | apply IHc]. }
  apply H.
Qed.

Lemma translated_unique (raw text : string) :
  Text.translated raw text -> text = universal_newlines raw.
Proof.
  induction 1 as [|raw text _ IH|raw text Hnext _ IH|c raw text Hc _ IH].
  - reflexivity.
  - rewrite IH. reflexivity.
  - rewrite IH. destruct raw as [|d raw]; [reflexivity |].
    cbn [universal_newlines]. replace (is_code 13 "013") with true by reflexivity.
    rewrite Hnext. reflexivity.
  - rewrite IH. cbn [universal_newlines]. rewrite Hc. reflexivity.
Qed.

Lemma readlines_nil (s : string) : readlines s = [] -> s = "".
Proof.
  destruct s as [|c s]; [reflexivity |]. simpl.
  destruct (is_code 10 c); [discriminate |].
  destruct (readlines s); discriminate.
Qed.

Lemma lines_of_readlines (text : string) : Text.lines_of text (readlines text).
Proof.
  induction text as [|c text IH]; simpl; [constructor |].
  destruct (is_code 10 c) eqn:Hc.
  - rewrite (is_code_char 10 c Hc).
    apply (Text.lines_next "" text (readlines text)); [reflexivity | exact IH].
  - assert (Hc' : Ascii.eqb c "010" = false) by (rewrite eqb_line_feed; exact Hc).
    destruct (readlines text) as [|l ls] eqn:E.
    + apply readlines_nil in E. subst text.
      apply Text.lines_last; [discriminate |]. simpl. rewrite Hc'. reflexivity.
    + inversion IH as [|body Hne Hbody|body rest lines Hbody Hrest]; subst.
      * apply Text.lines_last; [discriminate |]. simpl. rewrite Hc'. exact Hbody.
      * apply (Text.lines_next (String c body) rest ls); [|exact Hrest].
        simpl. rewrite Hc'. exact Hbody.
Qed.

Lemma readlines_last (body : string) :
  body <> "" -> contains "010" body = false -> readlines body = [body].
Proof.
  induction body as [|c body IH]; [congruence |].
  intros _. simpl. rewrite eqb_line_feed.
  intros [Hc Hbody]%orb_false_iff. rewrite Hc.
  destruct body as [|d body]; [reflexivity |].
  rewrite IH; [reflexivity | discriminate | exact Hbody].
Qed.

Lemma readlines_next (body rest : string) :
  contains "010" body = false ->
  readlines (body ++ String "010" rest)
  = (body ++ String "010" "") :: readlines rest.
Proof.
  induction body as [|c body IH]; simpl; [reflexivity |].
  rewrite eqb_line_feed. intros [Hc Hbody]%orb_false_iff.
  rewrite Hc, (IH Hbody). reflexivity.
Qed.

Lemma lines_of_unique (text : string) (lines : list string) :
  Text.lines_of text lines -> lines = readlines text.
Proof.
  induction 1 as [|body Hne Hbody|body rest lines Hbody _ IH].
  - reflexivity.
  - symmetry. apply readlines_last; assumption.
  - rewrite (readlines_next body rest Hbody), IH. reflexivity.
Qed.

(** The lines the code reads are the lines of the file, and no other list
    is. *)
Lemma file_has_lines_iff (raw : string) (lines : list string) :
  Text.file_has_lines raw lines <-> lines = file_lines raw.
Proof.
  unfold Text.file_has_lines, file_lines. split.
  - intros (text & Htext & Hlines).
    rewrite <- (translated_unique raw text Htext).
    apply lines_of_unique, Hlines.
  - intros ->. exists (universal_newlines raw).
    split; [apply translated_universal_newlines | apply lines_of_readlines].
Qed.

(** ** Scanning the file *)

Lemma scan_line_cases (sid m : Z) (line : string) :
  scan_line (Marker.sid_text sid) m line =
    match Re.search (Marker.sid_text sid) line with
    | Some ds =>
        if (int_max_str_digits <? String.length ds)%nat
        then Raise (too_many_digits (String.length ds))
        else Ok (Z.max m (Marker.value ds))
    | None => Ok m
    end.
Proof.
  unfold scan_line.
  destruct (Re.search (Marker.sid_text sid) line) as [g|] eqn:Hs; [|reflexivity].
  destruct (search_group_decimal sid line g Hs) as [Hds Hne].
  rewrite (int_decimal_cases g Hds Hne).
  destruct (_ <? _)%nat; reflexivity.
Qed.

Lemma max_rev_of_nonneg (revs : list Z) : 0 <= max_rev_of revs.
Proof. induction revs as [|r revs IH]; simpl; lia. Qed.

Lemma max_rev_of_upper (revs : list Z) (r : Z) :
  In r revs -> r <= max_rev_of revs.
Proof.
  induction revs as [|x revs IH]; simpl; [intros [] |].
  intros [<- | Hin]; [lia |]. specialize (IH Hin). lia.
Qed.

Lemma max_rev_of_In (revs : list Z) :
  revs <> [] -> (forall r, In r revs -> 0 <= r) ->
  In (max_rev_of revs) revs.
Proof.
  induction revs as [|r revs IH]; [congruence |].
  intros _ Hnn. simpl.
  assert (Hr : 0 <= r) by (apply Hnn; left; reflexivity).
  destruct revs as [|r' revs].
  - simpl. left. lia.
  - assert (Hin : In (max_rev_of (r' :: revs)) (r' :: revs)).
    { apply IH; [discriminate | intros x Hx; apply Hnn; right; exact Hx]. }
    set (m := max_rev_of (r' :: revs)) in *.
    destruct (Z.max_spec r m) as [[_ ->] | [_ ->]]; [right; exact Hin | left; reflexivity].
Qed.

Lemma line_revs_In (rev_pattern : string) (lines : list string) (r : Z) :
  In r (line_revs rev_pattern lines) <->
  exists line, In line lines /\ line_rev rev_pattern line = Some r.
Proof.
  unfold line_revs. rewrite in_flat_map. split.
  - intros (line & Hin & Hr). exists line. split; [exact Hin |].
    destruct (line_rev rev_pattern line) as [r'|]; simpl in Hr.
    + destruct Hr as [-> | []]. reflexivity.
    + destruct Hr.
  - intros (line & Hin & Hr). exists line. split; [exact Hin |].
    rewrite Hr. left. reflexivity.
Qed.

(** A scan that comes to its end returns the greatest revision met. *)
Lemma scan_lines_returns (sid : Z) (lines : list string) (failure : option exn) :
  forall m r,
    0 <= m ->
    scan_lines (Marker.sid_text sid) m lines failure = Ok r ->
    r = Z.max m (max_rev_of (line_revs (Marker.sid_text sid) lines))
    /\ failure = None.
Proof.
  induction lines as [|line rest IH]; intros m r Hm; simpl.
  - destruct failure; [discriminate |]. intros [= <-]. split; [lia | reflexivity].
  - rewrite scan_line_cases. unfold line_rev.
    destruct (Re.search (Marker.sid_text sid) line) as [ds|] eqn:Hs; simpl.
    + destruct (_ <? _)%nat; simpl; [discriminate |].
      intros H. apply IH in H as [-> ->]; [|lia]. split; [lia | reflexivity].
    + intros H. apply IH in H as [-> ->]; [|lia]. split; reflexivity.
Qed.

(** A scan over lines within the limit comes to its end, or to the failure
    of the file. *)
Lemma scan_lines_within (sid : Z) (lines : list string) (failure : option exn) :
  lines_within_limit (Marker.sid_text sid) lines = true ->
  forall m,
    0 <= m ->
    scan_lines (Marker.sid_text sid) m lines failure =
      match failure with
      | Some e => Raise e
      | None => Ok (Z.max m (max_rev_of (line_revs (Marker.sid_text sid) lines)))
      end.
Proof.
  induction lines as [|line rest IH]; simpl.
  - intros _ m Hm. destruct failure; [reflexivity |]. f_equal. lia.
  - intros [Hline Hrest]%andb_true_iff m Hm.
    rewrite scan_line_cases. unfold line_rev.
    destruct (Re.search (Marker.sid_text sid) line) as [ds|] eqn:Hs; simpl.
    + apply Nat.leb_le in Hline.
      destruct (Nat.ltb_spec int_max_str_digits (String.length ds)); [lia |].
      simpl. rewrite (IH Hrest) by lia.
      destruct failure; [reflexivity |]. f_equal. lia.
    + apply (IH Hrest), Hm.
Qed.

(** A scan fails at the first line that gives it too many digits, or, none
    doing so, with the failure of the file. *)
Lemma scan_lines_raises (sid : Z) (lines : list string) (failure : option exn)
    (e : exn) :
  forall m,
    scan_lines (Marker.sid_text sid) m lines failure = Raise e ->
    (exists line ds,
        In line lines
        /\ Re.search (Marker.sid_text sid) line = Some ds
        /\ (int_max_str_digits < String.length ds)%nat
        /\ e = too_many_digits (String.length ds))
    \/ failure = Some e.
Proof.
  induction lines as [|line rest IH]; intros m; simpl.
  - destruct failure; [|discriminate]. intros [= <-]. right. reflexivity.
  - rewrite scan_line_cases.
    destruct (Re.search (Marker.sid_text sid) line) as [ds|] eqn:Hs; simpl.
    + destruct (Nat.ltb_spec int_max_str_digits (String.length ds)); simpl.
      * intros [= <-]. left. exists line, ds. repeat split; try assumption.
        left. reflexivity.
      * intros Hrest. apply IH in Hrest as [(l & d & Hin & Hl) | Hf];
          [left | right; exact Hf].
        exists l, d. split; [right; exact Hin | exact Hl].
    + intros Hrest. apply IH in Hrest as [(l & d & Hin & Hl) | Hf];
        [left | right; exact Hf].
      exists l, d. split; [right; exact Hin | exact Hl].
Qed.

Lemma occurrences_unfold (rev_pattern line : string) :
  occurrences rev_pattern line =
    (match Re.match_here rev_pattern line with
     | Some ds => [ds]
     | None => []
     end ++
     match line with
     | EmptyString => []
     | String _ line' => occurrences rev_pattern line'
     end)%list.
Proof.
  destruct line; simpl; [|reflexivity].
  destruct (Re.match_here rev_pattern ""); reflexivity.
Qed.

(** The list of occurrences holds the digits of the markers that occur in
    the line, and nothing else. *)
Lemma occurrences_In (sid : Z) (line ds : string) :
  In ds (occurrences (Marker.sid_text sid) line) <->
  exists pre, Marker.occurs_after sid pre ds line.
Proof.
  split.
  - induction line as [|c line IH]; rewrite occurrences_unfold;
      destruct (Re.match_here (Marker.sid_text sid) _) as [g|] eqn:Hhere; simpl.
    + intros [<- | []]. exists "", "".
      split; [reflexivity | apply match_here_spec, Hhere].
    + intros [].
    + intros [<- | Hin].
      * exists "", (String c line).
        split; [reflexivity | apply match_here_spec, Hhere].
      * destruct (IH Hin) as (pre & s & -> & Hs).
        exists (String c pre), s. split; [reflexivity | exact Hs].
    + intros Hin. destruct (IH Hin) as (pre & s & -> & Hs).
      exists (String c pre), s. split; [reflexivity | exact Hs].
  - intros (pre & s & -> & Hs). apply match_here_spec in Hs.
    induction pre as [|c pre IH]; simpl append; rewrite occurrences_unfold.
    + rewrite Hs. apply in_or_app. left. left. reflexivity.
    + apply in_or_app. right. exact IH.
Qed.

Lemma within_limit_test (sid : Z) (lines : list string) :
  occurrences_within_limit (Marker.sid_text sid) lines = true
  <-> Marker.within_limit sid lines.
Proof.
  unfold occurrences_within_limit, Marker.within_limit.
  rewrite forallb_forall. split.
  - intros H line pre ds Hin Hocc.
    specialize (H line Hin). rewrite forallb_forall in H.
    apply Nat.leb_le, H, occurrences_In. exists pre. exact Hocc.
  - intros H line Hin. apply forallb_forall.
    intros ds (pre & Hocc)%occurrences_In.
    apply Nat.leb_le, (H line pre ds Hin Hocc).
Qed.

Lemma first_not_exceeded_test (sid : Z) (lines : list string) :
  first_occurrence_greatest (Marker.sid_text sid) lines = true
  <-> Marker.first_not_exceeded sid lines.
Proof.
  unfold first_occurrence_greatest, Marker.first_not_exceeded.
  rewrite forallb_forall. split.
  - intros H line ds pre' ds' Hin Hds%search_extracted Hocc.
    specialize (H line Hin). rewrite Hds, forallb_forall in H.
    apply Z.leb_le, H, occurrences_In. exists pre'. exact Hocc.
  - intros H line Hin.
    destruct (Re.search (Marker.sid_text sid) line) as [ds|] eqn:Hs; [|reflexivity].
    apply forallb_forall. intros ds' (pre' & Hocc)%occurrences_In.
    apply Z.leb_le, (H line ds pre' ds' Hin); [apply search_extracted, Hs | exact Hocc].
Qed.

(** Revisions within the limit everywhere are within the limit where the
    scan converts them. *)
Lemma within_limit_scan (sid : Z) (lines : list string) :
  Marker.within_limit sid lines ->
  lines_within_limit (Marker.sid_text sid) lines = true.
Proof.
  intros H. unfold lines_within_limit. apply forallb_forall. intros line Hin.
  destruct (Re.search (Marker.sid_text sid) line) as [ds|] eqn:Hs; [|reflexivity].
  apply search_leftmost in Hs as (pre & Hocc & _).
  apply Nat.leb_le, (H line pre ds Hin Hocc).
Qed.

(** The result for a file that is read to its end, with the signature ID
    and the revisions within the limit: one more than the greatest revision
    the lines give (none: 1). *)
Lemma latest_revision_existing (fs : gmap string file) (outfile : string)
    (sid : Z) (raw : string) :
  fs !! outfile = Some {| content := raw; failure := None |} ->
  Z.abs sid < 10 ^ Z.of_nat int_max_str_digits ->
  lines_within_limit (Marker.sid_text sid) (file_lines raw) = true ->
  _get_latest_revision fs outfile sid
  = Ok (1 + max_rev_of (line_revs (Marker.sid_text sid) (file_lines raw))).
Proof.
  intros Hfile Hsid Hlimit. unfold _get_latest_revision. rewrite Hfile.
  destruct (compile_cases sid) as [[_ ->] | [Hbig _]]; [|lia].
  cbn [bind content failure].
  rewrite (scan_lines_within sid _ None Hlimit) by lia. cbn [bind].
  pose proof (max_rev_of_nonneg (line_revs (Marker.sid_text sid) (file_lines raw))) as Hnn.
  destruct (Z.eqb_spec (Z.max 0 (max_rev_of (line_revs (Marker.sid_text sid) (file_lines raw)))) 0);
    f_equal; lia.
Qed.

(** The greatest revision the scan meets is the greatest of the revisions
    extracted from the lines. *)
Lemma max_rev_of_extracted (sid : Z) (lines : list string) :
  (exists line, In line lines /\ Marker.line_matches sid line) ->
  (exists line ds,
      In line lines /\ Marker.extracted sid line ds
      /\ max_rev_of (line_revs (Marker.sid_text sid) lines) = Marker.value ds)
  /\ (forall line ds,
        In line lines -> Marker.extracted sid line ds ->
        Marker.value ds <= max_rev_of (line_revs (Marker.sid_text sid) lines)).
Proof.
  intros (line & Hin & (g & Hg)%search_matches).
  set (revs := line_revs (Marker.sid_text sid) lines).
  assert (Hne : revs <> []).
  { intros Hnil.
    assert (Hr : In (Marker.value g) revs).
    { apply line_revs_In. exists line. split; [exact Hin |].
      unfold line_rev. rewrite Hg. reflexivity. }
    rewrite Hnil in Hr. destruct Hr. }
  assert (Hnn : forall r, In r revs -> 0 <= r).
  { intros r (l & _ & Hr)%line_revs_In. exact (line_rev_nonneg sid l r Hr). }
  split.
  - pose proof (max_rev_of_In revs Hne Hnn) as Hmax.
    apply line_revs_In in Hmax as (l & Hl & Hr). unfold line_rev in Hr.
    destruct (Re.search (Marker.sid_text sid) l) as [ds|] eqn:Hs; [|discriminate].
    injection Hr as Hr. exists l, ds.
    split; [exact Hl |]. split; [apply search_extracted, Hs | symmetry; exact Hr].
  - intros l ds Hl Hds%search_extracted.
    apply max_rev_of_upper, line_revs_In. exists l. split; [exact Hl |].
    unfold line_rev. rewrite Hds. reflexivity.
Qed.

(** Where no later occurrence carries more than the first of its line, the
    greatest revision the scan meets is the greatest revision in the
    lines. *)
Lemma max_rev_of_greatest (sid : Z) (lines : list string) :
  Marker.first_not_exceeded sid lines ->
  (exists line, In line lines /\ Marker.line_matches sid line) ->
  Marker.greatest sid lines (max_rev_of (line_revs (Marker.sid_text sid) lines)).
Proof.
  intros Hfirst Hsome.
  destruct (max_rev_of_extracted sid lines Hsome)
    as [(line & ds & Hin & (pre & Hocc & Hleast) & Hmax) Hupper].
  split.
  - exists line, pre, ds. split; [exact Hin |]. split; [exact Hocc | exact Hmax].
  - intros l pre' ds' Hl Hocc'.
    destruct (occurrence_is_found sid pre' ds' l Hocc') as [g Hg].
    apply search_extracted in Hg.
    pose proof (Hfirst l g pre' ds' Hl Hg Hocc').
    pose proof (Hupper l g Hl Hg). lia.
Qed.

Lemma line_revs_none (sid : Z) (lines : list string) :
  (forall line, In line lines -> ~ Marker.line_matches sid line) ->
  line_revs (Marker.sid_text sid) lines = [].
Proof.
  intros Hnone.
  destruct (line_revs (Marker.sid_text sid) lines) as [|r revs] eqn:E; [reflexivity |].
  assert (Hr : In r (line_revs (Marker.sid_text sid) lines))
    by (rewrite E; left; reflexivity).
  apply line_revs_In in Hr as (line & Hin & Hr). unfold line_rev in Hr.
  destruct (Re.search (Marker.sid_text sid) line) as [g|] eqn:Hs; [|discriminate].
  contradiction (Hnone line Hin). apply search_matches. exists g. exact Hs.
Qed.

(** ** Revision lookup *)

(** C1, as the code has it: the revision lookup. When no file exists at the
    path the result is 1. Otherwise, for a file that is read to its end,
    with a signature ID and revisions of no more digits than the interpreter
    converts, and with no line on which a later occurrence of the marker
    carries a greater revision than the first one: when at least one line of
    the file matches the marker for the signature ID, the result is 1 plus
    the greatest revision the marker carries in the lines, and when no line
    matches it is 1. *)
Theorem latest_revision_spec :
  forall (fs : gmap string file) (outfile : string) (sid : Z),
    (fs !! outfile = None -> _get_latest_revision fs outfile sid = Ok 1)
    /\ (forall raw lines,
          fs !! outfile = Some {| content := raw; failure := None |} ->
          Text.file_has_lines raw lines ->
          Z.abs sid < 10 ^ Z.of_nat int_max_str_digits ->
          Marker.within_limit sid lines ->
          Marker.first_not_exceeded sid lines ->
          ((exists line, In line lines /\ Marker.line_matches sid line) ->
             exists m,
               Marker.greatest sid lines m
               /\ _get_latest_revision fs outfile sid = Ok (1 + m))
          /\ ((forall line, In line lines -> ~ Marker.line_matches sid line) ->
              _get_latest_revision fs outfile sid = Ok 1)).
Proof.
  intros fs outfile sid. split.
  - intros Hnone. unfold _get_latest_revision. rewrite Hnone. reflexivity.
  - intros raw lines Hfile Hlines%file_has_lines_iff Hsid Hlimit%within_limit_scan
      Hfirst.
    subst lines.
    rewrite (latest_revision_existing fs outfile sid raw Hfile Hsid Hlimit).
    split.
    + intros Hsome.
      exists (max_rev_of (line_revs (Marker.sid_text sid) (file_lines raw))).
      split; [apply max_rev_of_greatest; assumption | reflexivity].
    + intros Hnone. rewrite (line_revs_none sid _ Hnone). reflexivity.
Qed.

Lemma latest_revision_spec_witness :
  exists m,
    Marker.greatest 100
      [ "alert tcp any any -> any 80 (msg:x; sid:100; rev:3;)" ++ String "010" "";
        "alert tcp any any -> any 80 (msg:y; sid:100; rev:7;)" ++ String "010" "" ] m
    /\ _get_latest_revision
         (<["local.rules" :=
              {| content :=
                   "alert tcp any any -> any 80 (msg:x; sid:100; rev:3;)" ++ String "013"
                   (String "010"
                   "alert tcp any any -> any 80 (msg:y; sid:100; rev:7;)" ++ String "010" "");
                 failure := None |}]> ∅)
         "local.rules" 100
       = Ok (1 + m).
Proof.
  destruct (latest_revision_spec
              (<["local.rules" :=
                   {| content :=
                        "alert tcp any any -> any 80 (msg:x; sid:100; rev:3;)" ++ String "013"
                        (String "010"
                        "alert tcp any any -> any 80 (msg:y; sid:100; rev:7;)" ++ String "010" "");
                      failure := None |}]> ∅)
              "local.rules" 100) as [_ Hexists].
  destruct (Hexists
              ("alert tcp any any -> any 80 (msg:x; sid:100; rev:3;)" ++ String "013"
               (String "010"
               "alert tcp any any -> any 80 (msg:y; sid:100; rev:7;)" ++ String "010" ""))
              [ "alert tcp any any -> any 80 (msg:x; sid:100; rev:3;)" ++ String "010" "";
                "alert tcp any any -> any 80 (msg:y; sid:100; rev:7;)" ++ String "010" "" ])
    as [Hsome _].
  - vm_compute. reflexivity.
  - apply file_has_lines_iff. vm_compute. reflexivity.
  - vm_compute. reflexivity.
  - apply within_limit_test. vm_compute. reflexivity.
  - apply first_not_exceeded_test. vm_compute. reflexivity.
  - apply Hsome.
    exists ("alert tcp any any -> any 80 (msg:x; sid:100; rev:3;)" ++ String "010" "").
    split; [left; reflexivity |].
    apply search_matches. eexists. vm_compute. reflexivity.
Defined.

(** C1, as stated, fails. A file whose one line matches the marker, with a
    revision of 4301 digits, does not make the lookup return: converting the
    revision raises a [ValueError]. And for a signature ID of 4301 digits
    the lookup raises a [ValueError] on an empty file, where no line matches
    and the result should be 1. *)
Lemma latest_revision_conversion_limit_raises :
  (Marker.line_matches 100 ("sid:100; rev:" ++ Text.repeat "1" 4301)
   /\ Text.file_has_lines ("sid:100; rev:" ++ Text.repeat "1" 4301)
        [ "sid:100; rev:" ++ Text.repeat "1" 4301 ]
   /\ _get_latest_revision
        (<["local.rules" :=
             {| content := "sid:100; rev:" ++ Text.repeat "1" 4301;
                failure := None |}]> ∅)
        "local.rules" 100
      = Raise (too_many_digits 4301))
  /\ (Text.file_has_lines "" []
      /\ _get_latest_revision
           (<["local.rules" := {| content := ""; failure := None |}]> ∅)
           "local.rules" (10 ^ 4300)
         = Raise too_large_to_format).
Proof.
  split; [split; [|split] | split].
  - apply search_matches. eexists. vm_compute. reflexivity.
  - apply file_has_lines_iff. vm_compute. reflexivity.
  - vm_compute. reflexivity.
  - apply file_has_lines_iff. reflexivity.
  - vm_compute. reflexivity.
Qed.

Example latest_revision_examples :
  _get_latest_revision ∅ "local.rules" 100 = Ok 1
  /\ _get_latest_revision
       (<["local.rules" :=
            {| content :=
                 "alert tcp any any -> any 80 (msg:x; sid:100; rev:3;)" ++ String "010"
                 "alert tcp any any -> any 80 (msg:y; sid:100; rev:7;)" ++ String "010" "";
               failure := None |}]> ∅)
       "local.rules" 100 = Ok 8
  /\ _get_latest_revision
       (<["local.rules" :=
            {| content :=
                 "alert tcp any any -> any 80 (msg:x; sid:100; rev:3;)" ++ String "010"
                 "alert tcp any any -> any 80 (msg:y; sid:100; rev:7;)" ++ String "010" "";
               failure := None |}]> ∅)
       "local.rules" 200 = Ok 1.
Proof. vm_compute. repeat split. Qed.

(** C2: every occurrence of the marker on a line is meant to count, so that
    the result is 1 plus the latest revision in the file. On a file whose
    one line holds the marker for 100 twice, first with revision 3 and then
    with revision 7, the code returns 4: the search is made once for each
    line and yields only the occurrence that comes first. *)
Theorem latest_revision_misses_later_occurrence :
  Marker.occurs_after 100 "" "3" "sid:100; rev:3 sid:100; rev:7"
  /\ Marker.occurs_after 100 "sid:100; rev:3 " "7" "sid:100; rev:3 sid:100; rev:7"
  /\ Text.file_has_lines "sid:100; rev:3 sid:100; rev:7"
       [ "sid:100; rev:3 sid:100; rev:7" ]
  /\ _get_latest_revision
       (<["local.rules" :=
            {| content := "sid:100; rev:3 sid:100; rev:7"; failure := None |}]> ∅)
       "local.rules" 100
     = Ok 4.
Proof.
  split; [|split; [|split]].
  - exists "sid:100; rev:3 sid:100; rev:7". split; [reflexivity |].
    apply match_here_spec. vm_compute. reflexivity.
  - exists "sid:100; rev:7". split; [reflexivity |].
    apply match_here_spec. vm_compute. reflexivity.
  - apply file_has_lines_iff. vm_compute. reflexivity.
  - vm_compute. reflexivity.
Qed.

(** * Further properties of the module *)

(** ** Decimal text of an integer *)

Lemma string_of_uint_decimal (d : Decimal.uint) :
  all_chars isdecimal_char (NilEmpty.string_of_uint d) = true.
Proof. induction d; simpl; rewrite ?IHd; reflexivity. Qed.

Lemma of_uint_acc_value (d : Decimal.uint) :
  forall acc : positive,
    Z.pos (Pos.of_uint_acc d acc)
    = Marker.value_from (Z.pos acc) (NilEmpty.string_of_uint d).
Proof.
  induction d; intros acc; simpl; [reflexivity | ..];
    rewrite IHd; f_equal; unfold digit_value; simpl; lia.
Qed.

Lemma of_uint_value (d : Decimal.uint) :
  Z.of_N (Pos.of_uint d) = Marker.value_from 0 (NilEmpty.string_of_uint d).
Proof.
  induction d; simpl; [reflexivity | exact IHd | ..];
    rewrite of_uint_acc_value; reflexivity.
Qed.

Lemma string_of_uint_nonnil (d : Decimal.uint) :
  d <> Decimal.Nil ->
  NilZero.string_of_uint d = NilEmpty.string_of_uint d
  /\ NilEmpty.string_of_uint d <> "".
Proof. destruct d; simpl; intros H; split; congruence. Qed.

(** The text [str] gives for a number that is not negative: digits only,
    at least one, and their value is the number. *)
Lemma str_of_Z_decimal (n : Z) :
  0 <= n ->
  all_chars isdecimal_char (str_of_Z n) = true
  /\ str_of_Z n <> ""
  /\ Marker.value (str_of_Z n) = n.
Proof.
  intros Hn. destruct n as [|p|p]; [repeat split; discriminate | | lia].
  unfold str_of_Z. simpl.
  destruct (string_of_uint_nonnil (Pos.to_uint p)
              (DecimalPos.Unsigned.to_uint_nonnil p)) as [-> Hne].
  split; [apply string_of_uint_decimal |]. split; [exact Hne |].
  unfold Marker.value.
  rewrite <- of_uint_value, DecimalPos.Unsigned.of_to. reflexivity.
Qed.

Lemma little_double_digits (d : Decimal.uint) :
  (Decimal.nb_digits (Decimal.Little.double d) <= S (Decimal.nb_digits d))%nat
  /\ (Decimal.nb_digits (Decimal.Little.succ_double d)
      <= S (Decimal.nb_digits d))%nat.
Proof. induction d as [|? [? ?]|? [? ?]|? [? ?]|? [? ?]|? [? ?]|? [? ?]|? [? ?]|? [? ?]|? [? ?]|? [? ?]]; simpl; split; lia. Qed.

Lemma to_little_uint_digits (p : positive) :
  (Decimal.nb_digits (Pos.to_little_uint p) <= Pos.size_nat p)%nat.
Proof.
  induction p as [p IH|p IH|]; simpl; [| |lia].
  - pose proof (proj2 (little_double_digits (Pos.to_little_uint p))). lia.
  - pose proof (proj1 (little_double_digits (Pos.to_little_uint p))). lia.
Qed.

Lemma string_of_uint_length (d : Decimal.uint) :
  String.length (NilEmpty.string_of_uint d) = Decimal.nb_digits d.
Proof. induction d; simpl; congruence. Qed.

(** A number has no more decimal digits than binary ones. *)
Lemma str_of_Z_length (n : Z) (q : positive) :
  0 <= n < Z.pos q -> (String.length (str_of_Z n) <= Pos.size_nat q)%nat.
Proof.
  intros Hn. destruct n as [|p|p]; [| |lia].
  - simpl. destruct q; simpl; lia.
  - unfold str_of_Z. simpl.
    destruct (string_of_uint_nonnil (Pos.to_uint p)
                (DecimalPos.Unsigned.to_uint_nonnil p)) as [-> _].
    rewrite string_of_uint_length. unfold Pos.to_uint.
    rewrite DecimalFacts.nb_digits_rev.
    pose proof (to_little_uint_digits p).
    assert (Pos.size_nat p <= Pos.size_nat q)%nat
      by (apply Pos.size_nat_monotone; lia).
    lia.
Qed.

(** [int(str(n))] is [n], for a number below 2^32. *)
Lemma int_str_of_Z (n : Z) : 0 <= n < 4294967296 -> int (str_of_Z n) = Ok n.
Proof.
  intros Hn. destruct (str_of_Z_decimal n (proj1 Hn)) as (Hds & Hne & Hval).
  rewrite (int_decimal _ Hds Hne), Hval; [reflexivity |].
  pose proof (str_of_Z_length n 4294967296 Hn) as Hlen.
  change (Pos.size_nat 4294967296) with 33%nat in Hlen.
  unfold int_max_str_digits. lia.
Qed.

Lemma decimal_lower (c : ascii) :
  isdecimal_char c = true -> lower_char c = c.
Proof. char_cases c. Qed.

Lemma decimal_text_not_any (s : string) :
  all_chars isdecimal_char s = true -> lower s <> "any".
Proof.
  destruct s as [|c s]; [discriminate |]. simpl.
  intros [Hc _]%andb_true_iff. rewrite (decimal_lower c Hc).
  intros [= -> _]. discriminate Hc.
Qed.

(** ** Port and priority: canonical results *)

(** X1: what the port validator returns is in canonical form. A returned
    value is [any] or the plain decimal text of an integer between 0 and
    65535, and the validator, given that value back, returns it again. *)
Theorem validate_port_canonical :
  forall value out : string,
    _validate_port value = Ok out ->
    (out = "any" \/ exists n, 0 <= n <= 65535 /\ out = str_of_Z n)
    /\ _validate_port out = Ok out.
Proof.
  intros value out H. unfold _validate_port in H.
  destruct (String.eqb (lower value) "any").
  - injection H as <-. split; [left |]; reflexivity.
  - destruct (int value) as [n|e]; simpl in H; [|destruct e; discriminate H].
    destruct ((0 <=? n) && (n <=? 65535)) eqn:Hr; simpl in H; [|discriminate H].
    injection H as <-. apply andb_true_iff in Hr.
    assert (Hn : 0 <= n <= 65535) by lia.
    split; [right; exists n; split; [exact Hn | reflexivity] |].
    destruct (str_of_Z_decimal n (proj1 Hn)) as (Hds & _ & _).
    apply (validate_port_number (str_of_Z n) n);
      [apply decimal_text_not_any, Hds | apply int_str_of_Z; lia | exact Hn].
Qed.

Lemma validate_port_canonical_witness :
  ("80" = "any" \/ exists n, 0 <= n <= 65535 /\ "80" = str_of_Z n)
  /\ _validate_port "80" = Ok "80".
Proof.
  apply (validate_port_canonical " +0_80 " "80").
  vm_compute. reflexivity.
Defined.

(** X2: the priority validator returns exactly for the inputs that [int]
    reads as an integer between 1 and 2147483647, and what it returns is the
    plain decimal text of that integer. *)
Theorem validate_priority_accepts :
  forall value out : string,
    _validate_priority value = Ok out <->
    exists n, int value = Ok n /\ 1 <= n <= 2147483647 /\ out = str_of_Z n.
Proof.
  intros value out. unfold _validate_priority. split.
  - destruct (int value) as [n|e]; simpl; [|destruct e; discriminate].
    destruct ((1 <=? n) && (n <=? 2147483647)) eqn:Hr; simpl; [|discriminate].
    intros [= <-]. apply andb_true_iff in Hr.
    exists n. repeat split; lia.
  - intros (n & -> & Hn & ->). simpl.
    replace ((1 <=? n) && (n <=? 2147483647)) with true
      by (symmetry; apply andb_true_iff; lia).
    reflexivity.
Qed.

(** X3: every failure of the priority validator carries the one message
    about integers, a number outside the range included: the range error is
    raised inside the [try] block and its handler replaces it. *)
Theorem validate_priority_single_message :
  forall (value : string) (e : exn),
    _validate_priority value = Raise e ->
    e = ValueError "Invalid priority: must be an integer.".
Proof.
  intros value e. unfold _validate_priority.
  destruct (int value) as [n|e'] eqn:Hint; simpl.
  - destruct ((1 <=? n) && (n <=? 2147483647)); simpl; congruence.
  - destruct (int_raises value e' Hint) as [msg ->]. simpl. congruence.
Qed.

Lemma validate_priority_single_message_witness :
  int "2147483648" = Ok 2147483648
  /\ exists e, _validate_priority "2147483648" = Raise e
               /\ e = ValueError "Invalid priority: must be an integer.".
Proof.
  split; [vm_compute; reflexivity |].
  exists (ValueError "Invalid priority: must be an integer.").
  split; [vm_compute; reflexivity |].
  apply (validate_priority_single_message "2147483648").
  vm_compute. reflexivity.
Defined.

(** X4: the priority validator, given back a value it returned, returns it
    again. *)
Theorem validate_priority_canonical :
  forall value out : string,
    _validate_priority value = Ok out -> _validate_priority out = Ok out.
Proof.
  intros value out H. unfold _validate_priority in H.
  destruct (int value) as [n|e]; simpl in H; [|destruct e; discriminate H].
  destruct ((1 <=? n) && (n <=? 2147483647)) eqn:Hr; simpl in H; [|discriminate H].
  injection H as <-. unfold _validate_priority.
  apply andb_true_iff in Hr.
  rewrite int_str_of_Z by lia. simpl.
  replace ((1 <=? n) && (n <=? 2147483647)) with true
    by (symmetry; apply andb_true_iff; lia).
  reflexivity.
Qed.

Lemma validate_priority_canonical_witness :
  _validate_priority "7" = Ok "7".
Proof.
  apply (validate_priority_canonical " 0_7" "7").
  vm_compute. reflexivity.
Defined.

(** ** Protocol *)

Lemma allowed_protocols_spec (val : string) :
  val ∈ allowed_protocols <->
  val = "tcp" \/ val = "udp" \/ val = "icmp" \/ val = "ip".
Proof.
  unfold allowed_protocols.
  rewrite !elem_of_union, !elem_of_singleton. tauto.
Qed.

(** X5: the protocol validator returns exactly when the lower-cased input
    is one of tcp, udp, icmp and ip, and what it returns is that lower-cased
    text; the order in which the interpreter walks the set plays no part. *)
Theorem validate_protocol_accepts :
  forall (iteration_order : list string) (value out : string),
    _validate_protocol iteration_order value = Ok out <->
    out = lower value
    /\ (out = "tcp" \/ out = "udp" \/ out = "icmp" \/ out = "ip").
Proof.
  intros order value out. unfold _validate_protocol. cbv zeta.
  case_bool_decide as Hin; rewrite allowed_protocols_spec in Hin.
  - split.
    + intros [= <-]. split; [reflexivity | exact Hin].
    + intros [-> _]. reflexivity.
  - split; [discriminate |]. intros [-> H]. contradiction.
Qed.

(** X6: a protocol the validator returned is returned again when it is
    validated once more, under any iteration order. *)
Theorem validate_protocol_canonical :
  forall (order order' : list string) (value out : string),
    _validate_protocol order value = Ok out ->
    _validate_protocol order' out = Ok out.
Proof.
  intros order order' value out H.
  assert (Hout : out = "tcp" \/ out = "udp" \/ out = "icmp" \/ out = "ip").
  { revert H. unfold _validate_protocol. cbv zeta.
    case_bool_decide as Hin; [|discriminate].
    intros [= <-]. apply allowed_protocols_spec, Hin. }
  assert (Hlower : lower out = out)
    by (destruct Hout as [-> | [-> | [-> | ->]]]; reflexivity).
  unfold _validate_protocol. cbv zeta. rewrite Hlower.
  rewrite bool_decide_eq_true_2 by (apply allowed_protocols_spec, Hout).
  reflexivity.
Qed.

Lemma validate_protocol_canonical_witness :
  _validate_protocol ["ip"; "udp"; "tcp"; "icmp"] "udp" = Ok "udp".
Proof.
  apply (validate_protocol_canonical ["tcp"; "udp"; "icmp"; "ip"]
           ["ip"; "udp"; "tcp"; "icmp"] "UdP" "udp").
  vm_compute. reflexivity.
Defined.

(** ** Address *)

(** X7: the address validator never changes its input. It returns exactly
    when the input is [any] in some letter case, or begins with a dollar
    sign, or is accepted by the address parser, and then returns the input
    as it is; when the parser rejects an input of neither of the first two
    kinds, the error names that input. *)
Theorem validate_ip_accepts :
  forall (address : Type) (ip_address : string -> result address)
         (value : string),
    (forall out,
       _validate_ip address ip_address value = Ok out <->
       out = value
       /\ (lower value = "any" \/ startswith_char "$" value = true
           \/ succeeds (ip_address value)))
    /\ (forall msg,
          lower value <> "any" -> startswith_char "$" value = false ->
          ip_address value = Raise (ValueError msg) ->
          _validate_ip address ip_address value
          = Raise (ValueError ("Invalid IP address: " ++ value))).
Proof.
  intros address ip_address value. unfold _validate_ip. split.
  - intros out.
    destruct (String.eqb_spec (lower value) "any") as [Hany|Hany]; simpl.
    { split; [intros [= <-]; split; [reflexivity | left; exact Hany]
             | intros [-> _]; reflexivity]. }
    destruct (startswith_char "$" value) eqn:Hvar.
    { split; [intros [= <-]; split; [reflexivity | right; left; reflexivity]
             | intros [-> _]; reflexivity]. }
    destruct (ip_address value) as [a|e] eqn:Hparse; simpl.
    + split; [intros [= <-]; split; [reflexivity |]
             | intros [-> _]; reflexivity].
      right. right. exists a. reflexivity.
    + split.
      * destruct e; discriminate.
      * intros [_ [H | [H | [a H]]]]; congruence.
  - intros msg Hany Hvar Hparse.
    destruct (String.eqb_spec (lower value) "any"); [contradiction |].
    rewrite Hvar, Hparse. reflexivity.
Qed.

(** ** Pattern *)

Lemma contains_split (c : ascii) (s : string) :
  contains c s = true <-> exists a b, s = a ++ String c b.
Proof.
  split.
  - intros (a & b & _ & Hs & _)%split_max1_first. exists a, b. exact Hs.
  - intros (a & b & ->). induction a as [|x a IH]; simpl.
    + rewrite Ascii.eqb_refl. reflexivity.
    + rewrite IH. apply orb_true_r.
Qed.

(** X8: the pattern validator returns exactly for the inputs that begin with
    a slash and hold a second slash, that is the inputs of the form
    [/pattern/modifiers], and then returns the input as it is; neither the
    pattern (it may be empty) nor the modifiers are looked at. *)
Theorem validate_pcre_accepts :
  forall pcre out : string,
    _validate_pcre pcre = Ok out <->
    out = pcre
    /\ exists pattern modifiers,
         pcre = String "/" (pattern ++ String "/" modifiers).
Proof.
  intros pcre out. unfold _validate_pcre.
  destruct (startswith_char "/" pcre && contains "/" (from_1 pcre)) eqn:E; simpl.
  - apply andb_true_iff in E as [Hstart Hrest].
    destruct pcre as [|c rest]; [discriminate Hstart |].
    simpl in Hstart, Hrest. apply Ascii.eqb_eq in Hstart as ->.
    apply contains_split in Hrest as (pattern & modifiers & ->).
    split.
    + intros [= <-]. split; [reflexivity |]. exists pattern, modifiers. reflexivity.
    + intros [-> _]. reflexivity.
  - split; [discriminate |].
    intros (_ & pattern & modifiers & ->). simpl in E.
    assert (Hc : contains "/" (pattern ++ String "/" modifiers) = true)
      by (apply contains_split; exists pattern, modifiers; reflexivity).
    rewrite Hc in E. discriminate E.
Qed.

(** ** TCP flags, continued *)

(** X9: the flags validator returns exactly for the inputs made of the
    thirteen characters of its alphabet, the letters in upper case, and what
    it returns is the input itself: the upper-casing never changes it. *)
Theorem validate_flags_accepts :
  forall (flags : string) (out : list N),
    _validate_flags flags = Ok out <->
    all_chars in_allowed_chars flags = true /\ out = codes flags.
Proof.
  intros flags out. unfold _validate_flags.
  destruct (all_chars in_allowed_chars flags) eqn:Hall.
  - rewrite (upper_allowed flags Hall). split.
    + intros [= <-]. split; reflexivity.
    + intros [_ ->]. reflexivity.
  - split; [discriminate | intros [H _]; discriminate H].
Qed.

(** ** Stripping and lower-casing *)

Lemma isspace_lower (c : ascii) : isspace_char (lower_char c) = isspace_char c.
Proof. char_cases c. Qed.

Lemma lower_char_idem (c : ascii) : lower_char (lower_char c) = lower_char c.
Proof. char_cases c. Qed.

Lemma lower_char_comma (c : ascii) :
  Ascii.eqb (lower_char c) "," = Ascii.eqb c ",".
Proof. char_cases c. Qed.

Lemma lower_idem (s : string) : lower (lower s) = lower s.
Proof.
  induction s as [|c s IH]; simpl; [reflexivity |].
  rewrite lower_char_idem, IH. reflexivity.
Qed.

Lemma lower_is_empty (s : string) : is_empty (lower s) = is_empty s.
Proof. destruct s; reflexivity. Qed.

Lemma contains_comma_lower (s : string) :
  contains "," (lower s) = contains "," s.
Proof.
  induction s as [|c s IH]; simpl; [reflexivity |].
  rewrite lower_char_comma, IH. reflexivity.
Qed.

Lemma lstrip_lower (s : string) :
  lstrip_with isspace_char (lower s) = lower (lstrip_with isspace_char s).
Proof.
  induction s as [|c s IH]; simpl; [reflexivity |].
  rewrite isspace_lower. destruct (isspace_char c); [exact IH | reflexivity].
Qed.

Lemma rstrip_lower (s : string) :
  rstrip_with isspace_char (lower s) = lower (rstrip_with isspace_char s).
Proof.
  induction s as [|c s IH]; simpl; [reflexivity |].
  rewrite IH, lower_is_empty, isspace_lower.
  destruct (is_empty (rstrip_with isspace_char s) && isspace_char c); reflexivity.
Qed.

Lemma strip_lower (s : string) : strip (lower s) = lower (strip s).
Proof. unfold strip, strip_with. rewrite lstrip_lower, rstrip_lower. reflexivity. Qed.

Lemma rstrip_idem (ws : ascii -> bool) (s : string) :
  rstrip_with ws (rstrip_with ws s) = rstrip_with ws s.
Proof.
  induction s as [|c s IH]; simpl; [reflexivity |].
  destruct (is_empty (rstrip_with ws s) && ws c) eqn:E; simpl; [reflexivity |].
  rewrite IH, E. reflexivity.
Qed.

Lemma lstrip_head (ws : ascii -> bool) (s : string) :
  lstrip_with ws s = ""
  \/ exists c rest, lstrip_with ws s = String c rest /\ ws c = false.
Proof.
  induction s as [|c s IH]; simpl; [left; reflexivity |].
  destruct (ws c) eqn:Hc; [exact IH |].
  right. exists c, s. split; [reflexivity | exact Hc].
Qed.

Lemma rstrip_cons_kept (ws : ascii -> bool) (c : ascii) (s : string) :
  ws c = false -> rstrip_with ws (String c s) = String c (rstrip_with ws s).
Proof.
  intros Hc. simpl. destruct (is_empty (rstrip_with ws s)); rewrite Hc; reflexivity.
Qed.

(** Stripping twice is stripping once. *)
Lemma strip_with_idem (ws : ascii -> bool) (s : string) :
  strip_with ws (strip_with ws s) = strip_with ws s.
Proof.
  unfold strip_with.
  destruct (lstrip_head ws s) as [-> | (c & rest & -> & Hc)]; [reflexivity |].
  rewrite (rstrip_cons_kept ws c rest Hc).
  simpl lstrip_with. rewrite Hc.
  rewrite (rstrip_cons_kept ws c _ Hc), rstrip_idem. reflexivity.
Qed.

Lemma strip_idem (s : string) : strip (strip s) = strip s.
Proof. apply strip_with_idem. Qed.

Lemma contains_lstrip (ws : ascii -> bool) (c : ascii) (s : string) :
  contains c s = false -> contains c (lstrip_with ws s) = false.
Proof.
  induction s as [|x s IH]; simpl; [reflexivity |].
  intros [Hx Hs]%orb_false_iff.
  destruct (ws x); [exact (IH Hs) |]. simpl. rewrite Hx, Hs. reflexivity.
Qed.

Lemma contains_rstrip (ws : ascii -> bool) (c : ascii) (s : string) :
  contains c s = false -> contains c (rstrip_with ws s) = false.
Proof.
  induction s as [|x s IH]; simpl; [reflexivity |].
  intros [Hx Hs]%orb_false_iff.
  destruct (is_empty (rstrip_with ws s) && ws x); [reflexivity |].
  simpl. rewrite Hx, (IH Hs). reflexivity.
Qed.

Lemma contains_strip (c : ascii) (s : string) :
  contains c s = false -> contains c (strip s) = false.
Proof.
  intros H. unfold strip, strip_with.
  apply contains_rstrip, contains_lstrip, H.
Qed.

Lemma split_max1_app (sep : ascii) (key val : string) :
  contains sep key = false ->
  split_max1 sep (key ++ String sep val) = [key; val].
Proof.
  induction key as [|c key IH]; simpl.
  - intros _. rewrite Ascii.eqb_refl. reflexivity.
  - intros [Hc Hkey]%orb_false_iff. rewrite Hc, (IH Hkey). reflexivity.
Qed.

(** ** Reference *)

Lemma validate_reference_inv (value out : string) :
  _validate_reference value = Ok out ->
  exists a b,
    value = a ++ String "," b
    /\ contains "," a = false
    /\ strip a <> ""
    /\ strip b <> ""
    /\ out = lower (strip a) ++ String "," (strip b).
Proof.
  unfold _validate_reference.
  destruct (contains "," value) eqn:Hc; simpl; [|discriminate].
  destruct (split_max1_first "," value Hc) as (a & b & -> & Hvalue & Ha).
  simpl. rewrite lower_is_empty.
  destruct (is_empty (strip a)) eqn:Ea; simpl; [discriminate |].
  destruct (is_empty (strip b)) eqn:Eb; simpl; [discriminate |].
  intros [= <-]. exists a, b.
  apply is_empty_false in Ea, Eb. repeat split; assumption.
Qed.

Lemma validate_reference_intro (a b : string) :
  contains "," a = false -> strip a <> "" -> strip b <> "" ->
  _validate_reference (a ++ String "," b)
  = Ok (lower (strip a) ++ String "," (strip b)).
Proof.
  intros Ha Hsa Hsb. unfold _validate_reference.
  assert (Hc : contains "," (a ++ String "," b) = true)
    by (apply contains_split; exists a, b; reflexivity).
  rewrite Hc, (split_max1_app "," a b Ha). simpl.
  rewrite lower_is_empty.
  apply is_empty_false in Hsa, Hsb. rewrite Hsa, Hsb. reflexivity.
Qed.

(** X10: the reference validator cuts its input at the first comma. It
    returns exactly when there is a comma and both the text before the first
    comma and the text after it hold something besides white space; what it
    returns is the first text, stripped and lower-cased, a comma, and the
    second text, stripped (commas after the first stay in it). *)
Theorem validate_reference_accepts :
  forall value out : string,
    _validate_reference value = Ok out <->
    exists a b,
      value = a ++ String "," b
      /\ contains "," a = false
      /\ strip a <> ""
      /\ strip b <> ""
      /\ out = lower (strip a) ++ String "," (strip b).
Proof.
  intros value out. split; [apply validate_reference_inv |].
  intros (a & b & -> & Ha & Hsa & Hsb & ->).
  apply validate_reference_intro; assumption.
Qed.

(** X11: what the reference validator returns is in canonical form: given
    back to the validator, it is returned as it is. *)
Theorem validate_reference_canonical :
  forall value out : string,
    _validate_reference value = Ok out -> _validate_reference out = Ok out.
Proof.
  intros value out (a & b & _ & Ha & Hsa & Hsb & ->)%validate_reference_inv.
  rewrite (validate_reference_intro (lower (strip a)) (strip b)).
  - rewrite strip_lower, !strip_idem, lower_idem. reflexivity.
  - rewrite contains_comma_lower. apply contains_strip, Ha.
  - rewrite strip_lower, strip_idem.
    apply is_empty_false. rewrite lower_is_empty. apply is_empty_false, Hsa.
  - rewrite strip_idem. exact Hsb.
Qed.

Lemma validate_reference_canonical_witness :
  _validate_reference "cve,2021-12345" = Ok "cve,2021-12345".
Proof.
  apply (validate_reference_canonical " CVE , 2021-12345 " "cve,2021-12345").
  vm_compute. reflexivity.
Defined.

(** X12: the reference validator fails in two ways only, each with its own
    message: no comma at all, or a first or second part that is empty or
    white space only. *)
Theorem validate_reference_failures :
  forall (value : string) (e : exn),
    _validate_reference value = Raise e ->
    (contains "," value = false
     /\ e = ValueError "Reference must be in format: scheme,id")
    \/ (exists a b,
          value = a ++ String "," b /\ contains "," a = false
          /\ (strip a = "" \/ strip b = "")
          /\ e = ValueError "Reference must include both scheme and id.").
Proof.
  intros value e. unfold _validate_reference.
  destruct (contains "," value) eqn:Hc; simpl.
  - destruct (split_max1_first "," value Hc) as (a & b & -> & Hvalue & Ha).
    simpl. rewrite lower_is_empty.
    destruct (is_empty (strip a)) eqn:Ea; simpl.
    + intros [= <-]. right. exists a, b. apply is_empty_true in Ea.
      repeat split; try assumption. left. exact Ea.
    + destruct (is_empty (strip b)) eqn:Eb; simpl; [|discriminate].
      intros [= <-]. right. exists a, b. apply is_empty_true in Eb.
      repeat split; try assumption. right. exact Eb.
  - intros [= <-]. left. split; reflexivity.
Qed.

Lemma validate_reference_failures_witness :
  exists e,
    _validate_reference " ,x" = Raise e
    /\ ((contains "," " ,x" = false
         /\ e = ValueError "Reference must be in format: scheme,id")
        \/ (exists a b,
              " ,x" = a ++ String "," b /\ contains "," a = false
              /\ (strip a = "" \/ strip b = "")
              /\ e = ValueError "Reference must include both scheme and id.")).
Proof.
  exists (ValueError "Reference must include both scheme and id.").
  split; [vm_compute; reflexivity |].
  apply (validate_reference_failures " ,x").
  vm_compute. reflexivity.
Defined.

(** ** Message escaping, continued *)

Lemma escape_char_shape (c : ascii) :
  in_reserved_class c = true ->
  exists x, escape_char c = Ok (String "\" (String x ""))
            /\ is_code 92 x = is_code 92 c.
Proof.
  destruct c as [[|] [|] [|] [|] [|] [|] [|] [|]]; vm_compute;
    intros H; try discriminate H; eexists; split; reflexivity.
Qed.

Lemma guarded_after_backslash (b : bool) (x : ascii) (tail : string) :
  Shape.guarded b (String "\" (String x tail))
  = Shape.guarded (is_code 92 x) tail.
Proof.
  cbn [Shape.guarded].
  replace (is_code 92 "\") with true by reflexivity.
  replace (is_code 59 "\" || is_code 34 "\" || is_code 124 "\" || is_code 39 "\")
    with false by reflexivity.
  rewrite orb_true_r. reflexivity.
Qed.

Lemma re_sub_reserved_guarded (value : string) :
  forall b, exists out,
    re_sub_reserved b value = Ok out /\ Shape.guarded b out = true.
Proof.
  induction value as [|c rest IH]; intros b.
  - exists "". split; reflexivity.
  - cbn [re_sub_reserved].
    destruct (IH (is_code 92 c)) as (tail & -> & Htail).
    destruct (in_reserved_class c && negb b) eqn:E.
    + apply andb_true_iff in E as [Hc _].
      destruct (escape_char_shape c Hc) as (x & -> & Hx). simpl.
      exists (String "\" (String x tail)). split; [reflexivity |].
      rewrite guarded_after_backslash, Hx. exact Htail.
    + simpl. exists (String c tail). split; [reflexivity |].
      cbn [Shape.guarded]. rewrite Htail, andb_true_r.
      unfold in_reserved_class in E.
      destruct (is_code 59 c), (is_code 92 c), (is_code 34 c),
        (is_code 124 c), (is_code 39 c), b; simpl in *; congruence.
Qed.

(** X13: the escaper never fails, the dictionary look-up of the replacement
    included, and in its result every semicolon, double quote, bar and
    single quote stands right after a backslash. *)
Theorem validate_msg_guards_terminators :
  forall value : string,
    exists escaped,
      _validate_msg value = Ok escaped
      /\ Shape.guarded false escaped = true.
Proof. intros value. apply re_sub_reserved_guarded. Qed.

Lemma re_sub_reserved_plain (value : string) :
  all_chars (fun c => negb (in_reserved_class c)) value = true ->
  forall b, re_sub_reserved b value = Ok value.
Proof.
  induction value as [|c rest IH]; intros Hall b; [reflexivity |].
  simpl in Hall. apply andb_true_iff in Hall as [Hc Hrest].
  cbn [re_sub_reserved]. rewrite (IH Hrest).
  apply negb_true_iff in Hc. rewrite Hc. reflexivity.
Qed.

(** X14: a message without any of the five reserved characters comes back
    as it is. *)
Theorem validate_msg_plain_unchanged :
  forall value : string,
    all_chars (fun c => negb (in_reserved_class c)) value = true ->
    _validate_msg value = Ok value.
Proof.
  intros value Hall. apply re_sub_reserved_plain, Hall.
Qed.

Lemma validate_msg_plain_unchanged_witness :
  _validate_msg "ET SCAN nmap probe" = Ok "ET SCAN nmap probe".
Proof.
  apply (validate_msg_plain_unchanged "ET SCAN nmap probe").
  vm_compute. reflexivity.
Defined.

(** ** Metadata, continued *)

Lemma xid_continue_not_space (c : ascii) :
  xid_continue c = true -> Ascii.eqb c " " = false.
Proof. char_cases c. Qed.

Lemma xid_first_not_space (c : ascii) :
  xid_start c || is_code 95 c = true -> Ascii.eqb c " " = false.
Proof. char_cases c. Qed.

Lemma xid_continue_no_space (s : string) :
  all_chars xid_continue s = true -> contains " " s = false.
Proof.
  induction s as [|c s IH]; simpl; [reflexivity |].
  intros [Hc Hs]%andb_true_iff.
  rewrite (xid_continue_not_space c Hc), (IH Hs). reflexivity.
Qed.

Lemma identifier_no_space (key : string) :
  isidentifier key = true -> contains " " key = false.
Proof.
  destruct key as [|c key]; simpl; [discriminate |].
  intros [Hc Hkey]%andb_true_iff.
  rewrite (xid_first_not_space c Hc), (xid_continue_no_space key Hkey).
  reflexivity.
Qed.

Lemma check_part_accepts (part : string) :
  no_trailing_space part ->
  check_part part = Ok tt <-> Shape.key_value part.
Proof.
  intros Hstripped. unfold check_part. split.
  - destruct (contains " " part) eqn:Hspace; simpl; [|discriminate].
    destruct (split_max1_first " " part Hspace) as (key & val & -> & Hpart & _).
    simpl. destruct (isidentifier key) eqn:Hid; simpl; [|discriminate].
    intros _. exists key, val. split; assumption.
  - intros (key & val & -> & Hid).
    assert (Hspace : contains " " (key ++ String " " val) = true)
      by (apply contains_split; exists key, val; reflexivity).
    rewrite Hspace, (split_max1_app " " key val (identifier_no_space key Hid)).
    simpl. rewrite Hid. simpl.
    destruct val as [|c val]; [|reflexivity].
    specialize (Hstripped key " "%char eq_refl). discriminate Hstripped.
Qed.

Lemma check_parts_accepts (parts : list string) :
  Forall no_trailing_space parts ->
  check_parts parts = Ok tt <-> Forall Shape.key_value parts.
Proof.
  induction 1 as [|part rest Hpart _ IH]; simpl.
  - split; [constructor | reflexivity].
  - split.
    + destruct (check_part part) as [[]|e] eqn:E; simpl; [|discriminate].
      intros Hrest. constructor; [|apply IH, Hrest].
      apply (check_part_accepts part Hpart), E.
    + intros Hall. inversion Hall as [|? ? Hkv Hrest]; subst.
      apply (check_part_accepts part Hpart) in Hkv. rewrite Hkv. simpl.
      apply IH, Hrest.
Qed.

(** X15: the metadata validator returns exactly when every segment between
    commas that is not blank has, once stripped, the form [key value] with
    an identifier as key; blank segments and an empty input pass. What it
    returns is always the input as it is. *)
Theorem validate_metadata_accepts :
  forall data : string,
    (_validate_metadata data = Ok data <->
       Forall Shape.key_value (metadata_parts data))
    /\ (forall out, _validate_metadata data = Ok out -> out = data).
Proof.
  intros data.
  assert (Hall : Forall no_trailing_space (metadata_parts data)).
  { apply List.Forall_forall. intros part. apply metadata_parts_stripped. }
  unfold _validate_metadata. split.
  - rewrite <- (check_parts_accepts _ Hall).
    destruct (check_parts (metadata_parts data)) as [[]|e]; simpl;
      split; congruence.
  - intros out. destruct (check_parts (metadata_parts data)); simpl; congruence.
Qed.

(** ** Offset and depth, continued *)

Lemma digit_not_int_space (c : ascii) :
  isdigit_char c = true -> int_space c = false.
Proof. char_cases c. Qed.

Lemma digit_not_sign_or_underscore (c : ascii) :
  isdigit_char c = true ->
  is_code 43 c = false /\ is_code 45 c = false /\ is_code 95 c = false.
Proof. char_cases c. Qed.

Lemma int_body_digits (s : string) :
  all_chars isdigit_char s = true ->
  forall acc b v,
    int_body s acc b = Some v ->
    all_chars isdecimal_char s = true /\ v = Marker.value_from acc s.
Proof.
  induction s as [|c s IH]; simpl.
  - intros _ acc b v. destruct b; [|discriminate].
    intros [= <-]. split; reflexivity.
  - intros [Hc Hs]%andb_true_iff acc b v.
    destruct (isdecimal_char c); simpl.
    + apply IH, Hs.
    + destruct (digit_not_sign_or_underscore c Hc) as (_ & _ & ->).
      discriminate.
Qed.

(** When [int] accepts a string that passes [isdigit], the string is made
    of decimal digits and the result is their value. *)
Lemma int_of_digits (s : string) (v : Z) :
  all_chars isdigit_char s = true -> int s = Ok v ->
  all_chars isdecimal_char s = true /\ v = Marker.value s.
Proof.
  intros Hall. unfold int, strip_with.
  destruct s as [|c s]; [discriminate |].
  pose proof Hall as Hall'. simpl in Hall'.
  apply andb_true_iff in Hall' as [Hc _].
  simpl lstrip_with. rewrite (digit_not_int_space c Hc).
  rewrite rstrip_with_id.
  - cbv zeta.
    destruct (int_body (digit_run (unsigned (String c s))) 0 false); [|discriminate].
    destruct (_ <? _)%nat; [discriminate |].
    unfold int_literal.
    destruct (digit_not_sign_or_underscore c Hc) as (-> & -> & _).
    destruct (int_body (String c s) 0 false) as [w|] eqn:Hbody; [|discriminate].
    intros [= <-]. exact (int_body_digits _ Hall 0 false w Hbody).
  - apply (all_chars_impl isdigit_char); [|exact Hall].
    intros c' Hc'. rewrite (digit_not_int_space c' Hc'). reflexivity.
Qed.

Lemma int_if_digits_result (x : option string) (r : option Z) :
  int_if_digits x = Ok r ->
  match r with
  | Some v =>
      exists s, x = Some s /\ isdigit s = true /\ int s = Ok v /\ 0 <= v
  | None => forall s, x = Some s -> isdigit s = false
  end.
Proof.
  destruct x as [s|]; simpl; [|intros [= <-]; discriminate].
  destruct (negb (is_empty s) && isdigit s) eqn:E.
  - apply andb_true_iff in E as [_ Hdig].
    destruct (int s) as [v|e] eqn:Hint; simpl; [|discriminate].
    intros [= <-]. exists s. repeat split; try assumption.
    unfold isdigit in Hdig. apply andb_true_iff in Hdig as [_ Hall].
    destruct (int_of_digits s v Hall Hint) as [Hdec ->].
    apply value_from_nonneg; [exact Hdec | lia].
  - intros [= <-] s' [= <-].
    unfold isdigit in *. destruct (negb (is_empty s)); [exact E | reflexivity].
Qed.

(** X16: what the offset and depth validator returns. Whenever it returns,
    a result is present exactly when the input is a string that passes
    [isdigit]; it is then what [int] makes of that string, and not
    negative; and when both results are present the offset is not above the
    depth. *)
Theorem validate_offset_depth_results :
  forall (offset depth : option string) (o d : option Z),
    _validate_offset_depth offset depth = Ok (o, d) ->
    (forall a, o = Some a ->
       exists s, offset = Some s /\ isdigit s = true /\ int s = Ok a /\ 0 <= a)
    /\ (o = None -> forall s, offset = Some s -> isdigit s = false)
    /\ (forall b, d = Some b ->
          exists s, depth = Some s /\ isdigit s = true /\ int s = Ok b /\ 0 <= b)
    /\ (d = None -> forall s, depth = Some s -> isdigit s = false)
    /\ (forall a b, o = Some a -> d = Some b -> a <= b).
Proof.
  intros offset depth o d. unfold _validate_offset_depth.
  destruct (int_if_digits offset) as [ro|e] eqn:Ho; simpl; [|discriminate].
  destruct (int_if_digits depth) as [rd|e] eqn:Hd; simpl; [|discriminate].
  pose proof (int_if_digits_result offset ro Ho) as Hro.
  pose proof (int_if_digits_result depth rd Hd) as Hrd.
  intros H.
  assert (Hpair : o = ro /\ d = rd
                  /\ (forall a b, ro = Some a -> rd = Some b -> a <= b)).
  { destruct ro as [a|], rd as [b|];
      try (injection H as <- <-; repeat split; discriminate).
    destruct (Z.ltb_spec b a); [discriminate H |].
    injection H as <- <-. repeat split. intros a' b' [= <-] [= <-]. lia. }
  destruct Hpair as (-> & -> & Hle).
  repeat split.
  - intros a ->. exact Hro.
  - intros ->. exact Hro.
  - intros b ->. exact Hrd.
  - intros ->. exact Hrd.
  - exact Hle.
Qed.

Lemma validate_offset_depth_results_witness :
  (forall a, Some 5 = Some a ->
     exists s, Some "005" = Some s /\ isdigit s = true /\ int s = Ok a /\ 0 <= a)
  /\ (Some 5 = None -> forall s, Some "005" = Some s -> isdigit s = false)
  /\ (forall b, @None Z = Some b ->
        exists s, Some "1x" = Some s /\ isdigit s = true /\ int s = Ok b /\ 0 <= b)
  /\ (@None Z = None -> forall s, Some "1x" = Some s -> isdigit s = false)
  /\ (forall a b, Some 5 = Some a -> @None Z = Some b -> a <= b).
Proof.
  apply (validate_offset_depth_results (Some "005") (Some "1x") (Some 5) None).
  vm_compute. reflexivity.
Defined.

(** ** Revision lookup, continued *)

(** X17: whenever the revision lookup returns, the number is at least 1 and
    above every revision the file records for the signature ID: for each
    line of the file, above the revision extracted from it. *)
Theorem latest_revision_exceeds_recorded :
  forall (fs : gmap string file) (outfile : string) (sid next : Z),
    _get_latest_revision fs outfile sid = Ok next ->
    1 <= next
    /\ forall f lines line ds,
         fs !! outfile = Some f ->
         Text.file_has_lines (content f) lines ->
         In line lines ->
         Marker.extracted sid line ds ->
         Marker.value ds < next.
Proof.
  intros fs outfile sid next. unfold _get_latest_revision.
  destruct (fs !! outfile) as [f|] eqn:Hfile.
  - destruct (compile_cases sid) as [[_ ->] | [_ ->]]; [|discriminate].
    cbn [bind].
    destruct (scan_lines (Marker.sid_text sid) 0 (file_lines (content f)) (failure f))
      as [r|e] eqn:Hscan; [|discriminate].
    cbn [bind]. intros [= <-].
    apply scan_lines_returns in Hscan as [-> _]; [|lia].
    set (revs := line_revs (Marker.sid_text sid) (file_lines (content f))).
    pose proof (max_rev_of_nonneg revs) as Hnn.
    assert (Hnext : (if Z.max 0 (max_rev_of revs) =? 0 then 1
                     else Z.max 0 (max_rev_of revs) + 1) = 1 + max_rev_of revs)
      by (destruct (Z.eqb_spec (Z.max 0 (max_rev_of revs)) 0); lia).
    rewrite Hnext. split; [lia |].
    intros f' lines line ds [= <-] ->%file_has_lines_iff Hin Hds%search_extracted.
    assert (Marker.value ds <= max_rev_of revs).
    { apply max_rev_of_upper, line_revs_In. exists line. split; [exact Hin |].
      unfold line_rev. rewrite Hds. reflexivity. }
    lia.
  - intros [= <-]. split; [lia | discriminate].
Qed.

Lemma latest_revision_exceeds_recorded_witness :
  1 <= 8
  /\ forall f lines line ds,
       (<["local.rules" :=
            {| content := "sid:100; rev:3;" ++ String "010" "sid:100; rev:7;";
               failure := None |}]> ∅ : gmap string file) !! "local.rules" = Some f ->
       Text.file_has_lines (content f) lines ->
       In line lines ->
       Marker.extracted 100 line ds ->
       Marker.value ds < 8.
Proof.
  apply (latest_revision_exceeds_recorded
           (<["local.rules" :=
                {| content := "sid:100; rev:3;" ++ String "010" "sid:100; rev:7;";
                   failure := None |}]> ∅) "local.rules" 100 8).
  vm_compute. reflexivity.
Defined.

(** X19: the revision lookup fails for an existing path only, and in one of
    three ways: the signature ID has more digits than the interpreter
    formats; or a line gives, as its extracted revision, more digits than
    the interpreter converts; or opening or reading the file fails, and
    that failure is what comes out. *)
Theorem latest_revision_failures :
  forall (fs : gmap string file) (outfile : string) (sid : Z) (e : exn),
    _get_latest_revision fs outfile sid = Raise e ->
    exists f,
      fs !! outfile = Some f
      /\ ((10 ^ Z.of_nat int_max_str_digits <= Z.abs sid
           /\ e = too_large_to_format)
          \/ (exists lines line ds,
                Text.file_has_lines (content f) lines
                /\ In line lines
                /\ Marker.extracted sid line ds
                /\ (int_max_str_digits < String.length ds)%nat
                /\ e = too_many_digits (String.length ds))
          \/ failure f = Some e).
Proof.
  intros fs outfile sid e. unfold _get_latest_revision.
  destruct (fs !! outfile) as [f|] eqn:Hfile; [|discriminate].
  intros H. exists f. split; [reflexivity |].
  destruct (compile_cases sid) as [[_ Hc] | [Hbig Hc]]; rewrite Hc in H;
    cbn [bind] in H.
  - destruct (scan_lines (Marker.sid_text sid) 0 (file_lines (content f)) (failure f))
      as [r|e'] eqn:Hscan; cbn [bind] in H; [discriminate |].
    injection H as <-.
    apply scan_lines_raises in Hscan as [(line & ds & Hin & Hs & Hlen & He) | Hf].
    + right. left. exists (file_lines (content f)), line, ds.
      split; [apply file_has_lines_iff; reflexivity |].
      split; [exact Hin |]. split; [apply search_extracted, Hs |].
      split; assumption.
    + right. right. exact Hf.
  - injection H as <-. left. split; [exact Hbig | reflexivity].
Qed.

Lemma latest_revision_failures_witness :
  exists f,
    (<["local.rules" :=
         {| content := "sid:100; rev:3;" ++ String "010" "";
            failure := Some (OSError "Input/output error") |}]> ∅ : gmap string file)
      !! "local.rules" = Some f
    /\ ((10 ^ Z.of_nat int_max_str_digits <= Z.abs 100
         /\ OSError "Input/output error" = too_large_to_format)
        \/ (exists lines line ds,
              Text.file_has_lines (content f) lines
              /\ In line lines
              /\ Marker.extracted 100 line ds
              /\ (int_max_str_digits < String.length ds)%nat
              /\ OSError "Input/output error" = too_many_digits (String.length ds))
        \/ failure f = Some (OSError "Input/output error")).
Proof.
  apply (latest_revision_failures
           (<["local.rules" :=
                {| content := "sid:100; rev:3;" ++ String "010" "";
                   failure := Some (OSError "Input/output error") |}]> ∅)
           "local.rules" 100 (OSError "Input/output error")).
  vm_compute. reflexivity.
Defined.

(** ** Wrapping for the argument parser *)

Lemma argparse_type_only_ValueError {A B : Type} (func : A -> result B)
    (value : A) :
  (forall e, func value = Raise e -> exists msg, e = ValueError msg) ->
  forall e, _argparse_type func value <> Uncaught e.
Proof.
  intros Hfunc e. unfold _argparse_type.
  destruct (func value) as [b|e'] eqn:E; [discriminate |].
  destruct (Hfunc e' eq_refl) as [msg ->]. discriminate.
Qed.

(** X18: a wrapped function returns what the function returns and turns its
    [ValueError] into an [ArgumentTypeError] with the same message; and for
    the validators of the module nothing else ever comes out of the wrapper,
    so the argument parser sees a value or an [ArgumentTypeError]. *)
Theorem argparse_type_validators :
  (forall (A B : Type) (func : A -> result B) (value : A),
     (forall b, _argparse_type func value = Returned b <-> func value = Ok b)
     /\ (forall msg, _argparse_type func value = ArgumentTypeError msg <->
                     func value = Raise (ValueError msg)))
  /\ (forall (value : string) (e : exn),
        _argparse_type _validate_port value <> Uncaught e
        /\ _argparse_type _validate_priority value <> Uncaught e
        /\ _argparse_type _validate_flags value <> Uncaught e
        /\ _argparse_type _validate_pcre value <> Uncaught e
        /\ _argparse_type _validate_metadata value <> Uncaught e
        /\ _argparse_type _validate_msg value <> Uncaught e
        /\ _argparse_type _validate_reference value <> Uncaught e
        /\ (forall order, _argparse_type (_validate_protocol order) value <> Uncaught e)).
Proof.
  split.
  - intros A B func value. unfold _argparse_type.
    split; [intros b | intros msg];
      (destruct (func value) as [b'|[m|k|o]]; split; congruence).
  - intros value e.
    repeat match goal with |- _ /\ _ => split end;
      try (match goal with |- forall _ : list string, _ => intros order end);
      apply argparse_type_only_ValueError; intros e' He'.
    + apply validate_port_single_message in He'. eexists. exact He'.
    + unfold _validate_priority in He'.
      destruct (int value) as [n|e0] eqn:Hint; simpl in He';
        [destruct ((1 <=? n) && (n <=? 2147483647)); simpl in He'
        |destruct (int_raises value e0 Hint) as [msg ->]; simpl in He'];
        try discriminate He'; injection He' as <-; eexists; reflexivity.
    + unfold _validate_flags in He'.
      destruct (all_chars in_allowed_chars value); [discriminate He' |].
      injection He' as <-. eexists. reflexivity.
    + unfold _validate_pcre in He'.
      destruct (negb _); [|discriminate He'].
      injection He' as <-. eexists. reflexivity.
    + unfold _validate_metadata in He'.
      assert (Hall : Forall no_trailing_space (metadata_parts value)).
      { apply List.Forall_forall. intros part. apply metadata_parts_stripped. }
      destruct (check_parts_outcomes _ Hall) as [H | [(p & H & _) | (k & H & _)]];
        rewrite H in He'; simpl in He'; try discriminate He';
        injection He' as <-; eexists; reflexivity.
    + destruct (validate_msg_total value) as [escaped H].
      rewrite H in He'. discriminate He'.
    + unfold _validate_reference in He'.
      destruct (contains "," value) eqn:Hc; simpl in He'.
      * destruct (split_max1_first "," value Hc) as (a & b & Hsplit & _ & _).
        rewrite Hsplit in He'. simpl in He'.
        destruct (is_empty (lower (strip a)) || is_empty (strip b));
          [|discriminate He'].
        injection He' as <-. eexists. reflexivity.
      * injection He' as <-. eexists. reflexivity.
    + unfold _validate_protocol in He'. cbv zeta in He'.
      destruct (bool_decide _); [discriminate He' |].
      injection He' as <-. eexists. reflexivity.
Qed.
